(** * HourTrack: session lifecycle, period calculation and aggregation

    A shallow embedding of the logic of [src/App.jsx]: the [dateHelpers]
    object, the start/stop/delete handlers of the [App] component, the
    snapshot listener and the [groupedSessions] memo, together with the
    parts of the JavaScript runtime they call ([Date], number formatting,
    [Array.prototype.sort], objects used as maps).

    Conventions.
    - A [Date] is its time value, an integer number of milliseconds since
      the epoch, in [Z].  ECMA-262 clips time values to +-8.64e15 ms
      (about 273 000 years around 1970); the model does not clip, so it
      coincides with the runtime on every time value whose computed
      results stay in that range, as those of the times at which
      sessions start and stop do.
    - The local time zone is a parameter of everything that reads local
      fields: the function [LocalTZA] of ECMA-262, which gives the offset
      of local time from UTC (milliseconds east of UTC) at a time value
      read as UTC or as local time.  What the zone must be like for a
      property to hold is said in its statement.
    - Minute counts and millisecond differences are integers, on which
      the runtime's double arithmetic is exact below 2^53. *)

From Stdlib Require Import ZArith List String Ascii Bool Lia.
From Stdlib Require Import Sorting.Sorted Sorting.Permutation.
Import ListNotations.

Local Open Scope Z_scope.

(** ** ECMA-262, section 21.4.1: time values and the abstract operations
       on them that [Date.prototype] methods are specified with. *)
Module JSDate.

Definition msPerDay : Z := 86400000.
Definition msPerHour : Z := 3600000.
Definition msPerMinute : Z := 60000.
Definition msPerSecond : Z := 1000.

Definition Day (t : Z) : Z := t / msPerDay.
Definition TimeWithinDay (t : Z) : Z := t mod msPerDay.

Definition DaysInYear (y : Z) : Z :=
  if negb (y mod 4 =? 0) then 365
  else if negb (y mod 100 =? 0) then 366
  else if negb (y mod 400 =? 0) then 365
  else 366.

Definition DayFromYear (y : Z) : Z :=
  365 * (y - 1970) + (y - 1969) / 4 - (y - 1901) / 100 + (y - 1601) / 400.

Definition TimeFromYear (y : Z) : Z := msPerDay * DayFromYear y.

(** "The largest integer y such that TimeFromYear(y) <= t": an estimate
    from the mean length of a Gregorian year, corrected by at most one
    (that it is that year is [JSDateFacts.YearFromTime_spec] and
    [JSDateFacts.YearFromTime_unique]). *)
Definition YearFromTime (t : Z) : Z :=
  let y := 1970 + (400 * Day t) / 146097 in
  if Day t <? DayFromYear y then y - 1
  else if DayFromYear (y + 1) <=? Day t then y + 1
  else y.

Definition InLeapYear (t : Z) : Z :=
  if DaysInYear (YearFromTime t) =? 365 then 0 else 1.

Definition DayWithinYear (t : Z) : Z := Day t - DayFromYear (YearFromTime t).

Definition MonthFromTime (t : Z) : Z :=
  let d := DayWithinYear t in
  let leap := InLeapYear t in
  if d <? 31 then 0
  else if d <? 59 + leap then 1
  else if d <? 90 + leap then 2
  else if d <? 120 + leap then 3
  else if d <? 151 + leap then 4
  else if d <? 181 + leap then 5
  else if d <? 212 + leap then 6
  else if d <? 243 + leap then 7
  else if d <? 273 + leap then 8
  else if d <? 304 + leap then 9
  else if d <? 334 + leap then 10
  else 11.

Definition DateFromTime (t : Z) : Z :=
  let d := DayWithinYear t in
  let leap := InLeapYear t in
  match MonthFromTime t with
  | 0 => d + 1
  | 1 => d - 30
  | 2 => d - 58 - leap
  | 3 => d - 89 - leap
  | 4 => d - 119 - leap
  | 5 => d - 150 - leap
  | 6 => d - 180 - leap
  | 7 => d - 211 - leap
  | 8 => d - 242 - leap
  | 9 => d - 272 - leap
  | 10 => d - 303 - leap
  | _ => d - 333 - leap
  end.

Definition WeekDay (t : Z) : Z := (Day t + 4) mod 7.

Definition HourFromTime (t : Z) : Z := (t / msPerHour) mod 24.
Definition MinFromTime (t : Z) : Z := (t / msPerMinute) mod 60.
Definition SecFromTime (t : Z) : Z := (t / msPerSecond) mod 60.
Definition msFromTime (t : Z) : Z := t mod msPerSecond.

Definition MakeTime (hour min sec ms : Z) : Z :=
  hour * msPerHour + min * msPerMinute + sec * msPerSecond + ms.

(** Number of days of the year that precede month [mn] (0 to 11). *)
Definition DaysBeforeMonth (leap mn : Z) : Z :=
  match mn with
  | 0 => 0
  | 1 => 31
  | 2 => 59 + leap
  | 3 => 90 + leap
  | 4 => 120 + leap
  | 5 => 151 + leap
  | 6 => 181 + leap
  | 7 => 212 + leap
  | 8 => 243 + leap
  | 9 => 273 + leap
  | 10 => 304 + leap
  | _ => 334 + leap
  end.

(** Number of days of month [mn] (0 to 11). *)
Definition DaysInMonth (leap mn : Z) : Z :=
  match mn with
  | 1 => 28 + leap
  | 3 | 5 | 8 | 10 => 30
  | _ => 31
  end.

(** [MakeDay] asks for the day number of "a time value t such that
    YearFromTime(t) is ym, MonthFromTime(t) is mn and DateFromTime(t) is
    1", plus [date - 1]; that day is the first of month [mn] of year [ym]. *)
Definition MakeDay (year month date : Z) : Z :=
  let ym := year + month / 12 in
  let mn := month mod 12 in
  let leap := if DaysInYear ym =? 365 then 0 else 1 in
  DayFromYear ym + DaysBeforeMonth leap mn + date - 1.

Definition MakeDate (day time : Z) : Z := day * msPerDay + time.

(** [TimeClip] keeps a time value when its magnitude is at most 8.64e15. *)
Definition maxTime : Z := 8640000000000000.
Definition valid_time (t : Z) : Prop := - maxTime <= t <= maxTime.
Definition valid_timeb (t : Z) : bool := (- maxTime <=? t) && (t <=? maxTime).

(** *** Local time

    [LocalTZA(t, isUTC)] is left to the implementation: the offset of
    the local zone at the UTC time value [t] when [isUTC] is true, at
    the local time value [t] otherwise (a local time that a change of
    offset repeats or skips is read with the offset before the change).
    [LocalTime(t) = t + LocalTZA(t, true)],
    [UTC(t) = t - LocalTZA(t, false)]. *)
Section LocalZone.
Variable LocalTZA : Z -> bool -> Z.

Definition LocalTime (t : Z) : Z := t + LocalTZA t true.
Definition UTC (t : Z) : Z := t - LocalTZA t false.

(** [Date.prototype.getDay], [getDate], [getMonth], [getFullYear],
    [getHours], ... read the fields of [LocalTime(t)]. *)
Definition getDay (t : Z) : Z := WeekDay (LocalTime t).
Definition getDate (t : Z) : Z := DateFromTime (LocalTime t).
Definition getMonth (t : Z) : Z := MonthFromTime (LocalTime t).
Definition getFullYear (t : Z) : Z := YearFromTime (LocalTime t).
Definition getHours (t : Z) : Z := HourFromTime (LocalTime t).
Definition getMinutes (t : Z) : Z := MinFromTime (LocalTime t).
Definition getSeconds (t : Z) : Z := SecFromTime (LocalTime t).
Definition getMilliseconds (t : Z) : Z := msFromTime (LocalTime t).

(** [Date.prototype.setDate(dt)]: same local year, month and time of
    day, day of month [dt]; [dt] outside the month rolls over. *)
Definition setDate (t dt : Z) : Z :=
  let lt := LocalTime t in
  UTC (MakeDate (MakeDay (YearFromTime lt) (MonthFromTime lt) dt)
                (TimeWithinDay lt)).

(** [Date.prototype.setHours(hour, min, sec, ms)]. *)
Definition setHours (t hour min sec ms : Z) : Z :=
  let lt := LocalTime t in
  UTC (MakeDate (Day lt) (MakeTime hour min sec ms)).
End LocalZone.

(** A zone whose offset never changes. *)
Definition fixed_zone (offset : Z) : Z -> bool -> Z := fun _ _ => offset.

(** A zone in which a local time, taken to UTC and back, stays on its
    calendar day (no change of clocks carries a local time over
    midnight), and whose offsets are at most a day. *)
Definition regular_zone (LocalTZA : Z -> bool -> Z) : Prop :=
  (forall x, Day (LocalTime LocalTZA (UTC LocalTZA x)) = Day x) /\
  (forall t b, - msPerDay <= LocalTZA t b <= msPerDay).

(** The offsets of America/Los_Angeles around 3 November 2024, when
    02:00 PDT (09:00 UTC) became 01:00 PST: seven hours behind UTC
    before, eight hours after. *)
Definition pacific_2024 (t : Z) (isUTC : bool) : Z :=
  if isUTC then
    if t <? 1730624400000 then -7 * msPerHour else -8 * msPerHour
  else
    if t <? 1730599200000 then -7 * msPerHour else -8 * msPerHour.

End JSDate.

(** ** Strings and numbers of the runtime *)
Module JSString.

Local Open Scope string_scope.

Definition digit_char (d : Z) : ascii := ascii_of_nat (48 + Z.to_nat d).

(** Decimal digits of [n >= 0], most significant first, put in front of
    [acc]; [fuel] bounds the number of digits. *)
Fixpoint decimal_aux (fuel : nat) (n : Z) (acc : string) : string :=
  match fuel with
  | O => acc
  | S fuel' =>
      let acc' := String (digit_char (n mod 10)) acc in
      if (n <? 10)%Z then acc' else decimal_aux fuel' (n / 10) acc'
  end.

Definition decimal (n : Z) : string :=
  decimal_aux (S (Z.to_nat (Z.log2 n))) n "".

(** [Number.prototype.toString()] on an integer (below 1e21, where the
    runtime switches to exponent notation). *)
Definition Number_toString (n : Z) : string :=
  if (n <? 0)%Z then "-" ++ decimal (- n) else decimal n.

(** The first [k] characters of [fill] repeated without end. *)
Fixpoint filler (k : nat) (fill cur : string) : string :=
  match k with
  | O => ""
  | S k' =>
      match cur with
      | String c r => String c (filler k' fill r)
      | EmptyString =>
          match fill with
          | String c r => String c (filler k' fill r)
          | EmptyString => ""
          end
      end
  end.

(** [String.prototype.padStart(maxLength, fillString)]. *)
Definition padStart (maxLength : nat) (fill : string) (s : string) : string :=
  if (maxLength <=? length s)%nat then s
  else filler (maxLength - length s) fill fill ++ s.

(** [s.split(sep)[0]] for a one-character separator: the part of [s]
    before the first [sep], all of [s] when there is none. *)
Fixpoint split_head (sep : ascii) (s : string) : string :=
  match s with
  | EmptyString => ""
  | String c r => if Ascii.eqb c sep then "" else String c (split_head sep r)
  end.

Definition is_space (c : ascii) : bool :=
  let n := nat_of_ascii c in
  ((9 <=? n) && (n <=? 13) || (n =? 32))%nat.

Fixpoint trimStart (s : string) : string :=
  match s with
  | String c r => if is_space c then trimStart r else s
  | EmptyString => ""
  end.

Fixpoint trimEnd (s : string) : string :=
  match s with
  | EmptyString => ""
  | String c r =>
      match trimEnd r with
      | EmptyString => if is_space c then "" else String c ""
      | r' => String c r'
      end
  end.

(** [String.prototype.trim()] (on the white space of ASCII). *)
Definition trim (s : string) : string := trimEnd (trimStart s).

(** *** Numerals of a fixed width, in which the properties of the
        numerals above are stated *)

(** The [k] low decimal digits of [n], most significant first, in front
    of [acc]. *)
Fixpoint fixed (k : nat) (n : Z) (acc : string) : string :=
  match k with
  | O => acc
  | S k' => fixed k' (n / 10) (String (digit_char (n mod 10)) acc)
  end.

Fixpoint has_char (c : ascii) (s : string) : bool :=
  match s with
  | EmptyString => false
  | String c' r => Ascii.eqb c' c || has_char c r
  end.

End JSString.

(** ** [Date.prototype.toISOString] and [new Date(string)] *)
Module JSDateText.
Import JSDate JSString.

Local Open Scope string_scope.

Definition pad (width : nat) (n : Z) : string :=
  padStart width "0" (Number_toString n).

(** Years 0 to 9999 are written with four digits, the others with a sign
    and six digits. *)
Definition yearString (y : Z) : string :=
  if ((0 <=? y) && (y <=? 9999))%Z then pad 4 y
  else (if (y <? 0)%Z then "-" else "+") ++ pad 6 (Z.abs y).

(** [YYYY-MM-DDTHH:mm:ss.sssZ], fields of the time value in UTC. *)
Definition toISOString (t : Z) : string :=
  yearString (YearFromTime t) ++ "-" ++ pad 2 (MonthFromTime t + 1) ++ "-"
  ++ pad 2 (DateFromTime t) ++ "T" ++ pad 2 (HourFromTime t) ++ ":"
  ++ pad 2 (MinFromTime t) ++ ":" ++ pad 2 (SecFromTime t) ++ "."
  ++ pad 3 (msFromTime t) ++ "Z".

Definition digit_val (c : ascii) : option Z :=
  let n := nat_of_ascii c in
  if ((48 <=? n) && (n <=? 57))%nat then Some (Z.of_nat (n - 48)) else None.

(** Reads exactly [k] decimal digits. *)
Fixpoint read_digits (k : nat) (acc : Z) (s : string) : option (Z * string) :=
  match k with
  | O => Some (acc, s)
  | S k' =>
      match s with
      | String c r =>
          match digit_val c with
          | Some d => read_digits k' (10 * acc + d)%Z r
          | None => None
          end
      | EmptyString => None
      end
  end.

Definition read_char (c : ascii) (s : string) : option string :=
  match s with
  | String c' r => if Ascii.eqb c' c then Some r else None
  | EmptyString => None
  end.

Definition read_year (s : string) : option (Z * string) :=
  match s with
  | String "+" r => read_digits 6 0 r
  | String "-" r =>
      match read_digits 6 0 r with
      | Some (y, r') => if (y =? 0)%Z then None else Some (- y, r')%Z
      | None => None
      end
  | _ => read_digits 4 0 s
  end.

(** The time value of [new Date(s)] for [s] in the date-only forms
    [YYYY-MM-DD] and [+-YYYYYY-MM-DD] of the Date Time String Format,
    which denote midnight UTC; [None] stands for NaN (Invalid Date).
    Only the keys of [groups] are ever parsed, and they have this form;
    any other text is NaN here. *)
Definition Date_of_string (s : string) : option Z :=
  match read_year s with
  | Some (y, r1) =>
    match read_char "-" r1 with
    | Some r2 =>
      match read_digits 2 0 r2 with
      | Some (m, r3) =>
        match read_char "-" r3 with
        | Some r4 =>
          match read_digits 2 0 r4 with
          | Some (d, EmptyString) =>
              if ((1 <=? m) && (m <=? 12) && (1 <=? d) && (d <=? 31))%Z then
                let tv := MakeDate (MakeDay y (m - 1) d) 0 in
                if valid_timeb tv then Some tv else None
              else None
          | _ => None
          end
        | None => None
        end
      | None => None
      end
    | None => None
    end
  | None => None
  end.

(** The text [YYYY-MM-DD] (or [+-YYYYYY-MM-DD]) of a calendar date. *)
Definition dateText (y m d : Z) : string :=
  yearString y ++ String "-" (fixed 2 m (String "-" (fixed 2 d ""))).

End JSDateText.

(** ** Arrays and objects of the runtime *)
Module JSArray.

Section Sort.
Context {A : Type}.
(** A comparator returns a number; [None] is NaN, which
    [Array.prototype.sort] reads as [+0]. *)
Variable comparefn : A -> A -> option Z.

Definition SortCompare (x y : A) : Z :=
  match comparefn x y with
  | Some v => v
  | None => 0
  end.

Fixpoint sort_insert (x : A) (l : list A) : list A :=
  match l with
  | [] => [x]
  | y :: l' =>
      if SortCompare x y <=? 0 then x :: l else y :: sort_insert x l'
  end.

(** [Array.prototype.sort(comparefn)] is a stable sort; the model is
    the stable insertion sort. *)
Definition sort (l : list A) : list A := fold_right sort_insert [] l.
End Sort.

(** The comparator is the difference of a measure [f] on the elements
    of [l], the larger measure first. *)
Definition by_measure {A : Type} (comparefn : A -> A -> option Z)
    (f : A -> Z) (l : list A) : Prop :=
  forall a b, In a l -> In b l -> comparefn a b = Some (f b - f a).

End JSArray.

(** An object used as a map from strings: its own properties in creation
    order, which is the order of [Object.keys] for keys that are not
    array indices.  The keys of [groups] are texts of dates: none is an
    array index, none names a property that [{}] inherits. *)
Module JSObject.

Section Obj.
Context {V : Type}.
Definition t := list (string * V).

Fixpoint get (k : string) (o : t) : option V :=
  match o with
  | [] => None
  | (k', v) :: o' => if String.eqb k' k then Some v else get k o'
  end.

(** [o[k] = v]: replaces the value of an existing property in place,
    adds a new property after the others. *)
Fixpoint set (k : string) (v : V) (o : t) : t :=
  match o with
  | [] => [(k, v)]
  | (k', v') :: o' =>
      if String.eqb k' k then (k', v) :: o' else (k', v') :: set k v o'
  end.

(** [o[k].field = ...]: a mutation of the object stored under [k]. *)
Fixpoint update (k : string) (f : V -> V) (o : t) : t :=
  match o with
  | [] => []
  | (k', v') :: o' =>
      if String.eqb k' k then (k', f v') :: o' else (k', v') :: update k f o'
  end.

Definition keys (o : t) : list string := map fst o.
End Obj.

Arguments t : clear implicits.

End JSObject.

(** ** [dateHelpers] (App.jsx, lines 25 to 68) *)
Module dateHelpers.
Import JSDate JSString.

(** What [formatDuration] is applied to: [null], NaN, or an integer. *)
Inductive minutes_value : Type :=
| Null
| NaN
| Num (n : Z).

(** [Math.floor(minutes / 60)] is the floor quotient, [minutes % 60] the
    remainder with the sign of [minutes]. *)
Definition formatDuration (minutes : minutes_value) : string :=
  match minutes with
  | Null | NaN => "0:00"
  | Num n =>
      let h := n / 60 in
      let m := Z.rem n 60 in
      (Number_toString h ++ ":" ++ padStart 2 "0" (Number_toString m))%string
  end.

Section Zone.
Variable LocalTZA : Z -> bool -> Z.

Definition getWeekStart (date : Z) : Z :=
  let d := date in
  let day := getDay LocalTZA d in
  let diff := getDate LocalTZA d - day in
  let d := setDate LocalTZA d diff in
  let d := setHours LocalTZA d 0 0 0 0 in
  d.

Definition getBiweekStart (date : Z) : Z :=
  let d := date in
  let d := setHours LocalTZA d 0 0 0 0 in
  let dayOfMonth := getDate LocalTZA d in
  let period := if dayOfMonth <=? 15 then 1 else 16 in
  let d := setDate LocalTZA d period in
  d.

Definition getMonthStart (date : Z) : Z :=
  let d := date in
  let d := setHours LocalTZA d 0 0 0 0 in
  let d := setDate LocalTZA d 1 in
  d.
End Zone.

End dateHelpers.

(** ** Sessions and the session store *)

(** A session as the snapshot listener builds it from a document:
    [end_time] and [duration] are [null] ([None]) while it is open.
    Identifiers are opaque; the model numbers the documents. *)
Record Session : Type := mkSession {
  id : nat;
  start_time : Z;
  end_time : option Z;
  duration : option Z;
  jobName : string
}.

(** [!s.end_time] *)
Definition is_open (s : Session) : bool :=
  match end_time s with
  | None => true
  | Some _ => false
  end.

(** The data model of a session: [durationMinutes] is absent exactly
    when [endTime] is. *)
Definition well_formed (s : Session) : Prop :=
  end_time s = None <-> duration s = None.

(** One half of it: a session without [endTime] has no
    [durationMinutes]. *)
Definition open_without_duration (s : Session) : Prop :=
  end_time s = None -> duration s = None.

(** The sessions that lack [endTime]. *)
Definition open_sessions (l : list Session) : list Session := filter is_open l.

(** The collection [artifacts/<appId>/users/<userId>/sessions] of the
    document store, reduced to what [App] uses of it: documents with
    distinct identifiers, writes that are accepted or rejected, and the
    query ordered by [start_time] descending. *)
Module Store.

Record t : Type := mk {
  docs : list Session;
  accepts_writes : bool
}.

Definition fresh_id (ds : list Session) : nat := S (list_max (map id ds)).

(** [addDoc(collection, fields)]: a document under a new identifier. *)
Definition addDoc (st : t) (start : Z) (job : string) : option t :=
  if accepts_writes st then
    Some {| docs := docs st ++
              [ {| id := fresh_id (docs st); start_time := start;
                   end_time := None; duration := None; jobName := job |} ];
            accepts_writes := true |}
  else None.

Definition has_id (i : nat) (s : Session) : bool := Nat.eqb (id s) i.

(** [updateDoc(doc(.., i), fields)] fails on a document that does not
    exist. *)
Definition updateDoc (st : t) (i : nat) (fields : Session -> Session)
    : option t :=
  if accepts_writes st && existsb (has_id i) (docs st) then
    Some {| docs := map (fun s => if has_id i s then fields s else s) (docs st);
            accepts_writes := true |}
  else None.

(** [deleteDoc(doc(.., i))] *)
Definition deleteDoc (st : t) (i : nat) : option t :=
  if accepts_writes st then
    Some {| docs := filter (fun s => negb (has_id i s)) (docs st);
            accepts_writes := true |}
  else None.

(** [query(collection, orderBy("start_time", "desc"))] *)
Definition by_start_desc (a b : Session) : option Z :=
  Some (start_time b - start_time a).

Definition snapshot (st : t) : list Session :=
  JSArray.sort by_start_desc (docs st).

End Store.

(** ** The [App] component: state, snapshot listener, handlers *)
Module App.
Import JSString.

Record State : Type := mkState {
  db : bool;                    (* [db] is set *)
  userId : option string;
  isAuthReady : bool;
  sessions : list Session;
  isTracking : bool;
  jobInput : string;
  error : option string
}.

Definition set_error (msg : string) (st : State) : State :=
  {| db := db st; userId := userId st; isAuthReady := isAuthReady st;
     sessions := sessions st; isTracking := isTracking st;
     jobInput := jobInput st; error := Some msg |}.

Definition set_jobInput (v : string) (st : State) : State :=
  {| db := db st; userId := userId st; isAuthReady := isAuthReady st;
     sessions := sessions st; isTracking := isTracking st;
     jobInput := v; error := error st |}.

(** [!db || !userId] *)
Definition not_connected (st : State) : bool :=
  negb (db st) ||
  match userId st with
  | None => true
  | Some u => String.eqb u ""
  end.

(** The callback given to [onSnapshot] (lines 144 to 170).  [captured]
    is the value of [isTracking] in the closure of the effect. *)
Definition onSnapshot (captured : bool) (fetchedSessions : list Session)
    (st : State) : State :=
  let activeSession := find is_open fetchedSessions in
  {| db := db st; userId := userId st; isAuthReady := isAuthReady st;
     sessions := fetchedSessions;
     isTracking := match activeSession with Some _ => true | None => false end;
     jobInput := match activeSession with
                 | Some a => jobName a
                 | None => if captured then ""%string else jobInput st
                 end;
     error := error st |}.

(** [jobInput.trim() || 'Unspecified Project'] *)
Definition job_label (input : string) : string :=
  match trim input with
  | EmptyString => "Unspecified Project"%string
  | s => s
  end.

(** [startTracking] (lines 180 to 198), run at time [now]. *)
Definition startTracking (now : Z) (st : State) (store : Store.t)
    : State * Store.t :=
  if not_connected st then (st, store)
  else
    match Store.addDoc store now (job_label (jobInput st)) with
    | Some store' => (st, store')
    | None =>
        (set_error "Could not start session. Please try again." st, store)
    end.

(** [Math.round(n / d)] for integers [n] and [d > 0]: the nearest
    integer, a half going up. *)
Definition Math_round_div (n d : Z) : Z := (2 * n + d) / (2 * d).

(** The fields written by [stopTracking]. *)
Definition stop_fields (now durationMinutes : Z) (s : Session) : Session :=
  {| id := id s; start_time := start_time s; end_time := Some now;
     duration := Some durationMinutes; jobName := jobName s |}.

(** [stopTracking] (lines 200 to 231), run at time [now]. *)
Definition stopTracking (now : Z) (st : State) (store : Store.t)
    : State * Store.t :=
  if not_connected st then (st, store)
  else
    match find is_open (sessions st) with
    | None => (st, store)
    | Some activeSession =>
        let startTime := start_time activeSession in
        let durationMs := now - startTime in
        let durationMinutes := Math_round_div durationMs (1000 * 60) in
        match Store.updateDoc store (id activeSession)
                (stop_fields now durationMinutes) with
        | Some store' => (set_jobInput "" st, store')
        | None =>
            (set_error "Could not stop session. Please check the console." st,
             store)
        end
    end.

(** [deleteSession] (lines 233 to 245); [confirmed] is the answer to
    [window.confirm]. *)
Definition deleteSession (confirmed : bool) (sessionId : nat) (st : State)
    (store : Store.t) : State * Store.t :=
  if not_connected st then (st, store)
  else if negb confirmed then (st, store)
  else
    match Store.deleteDoc store sessionId with
    | Some store' => (st, store')
    | None =>
        (set_error "Could not delete session. Check the console." st, store)
    end.

(** The start/stop button (lines 359 to 361):
    [onClick={isTracking ? stopTracking : startTracking}],
    [disabled={!isAuthReady}]. *)
Definition onClick (now : Z) (st : State) (store : Store.t)
    : State * Store.t :=
  if negb (isAuthReady st) then (st, store)
  else if isTracking st then stopTracking now st store
  else startTracking now st store.

(** *** The component and the store together

    The store pushes the full list of sessions to the listener after
    every change; the listener is subscribed once [db], [isAuthReady]
    and [userId] are set (line 138). *)
Definition subscribed (st : State) : bool :=
  db st && isAuthReady st && negb (not_connected st).

Definition deliver (captured : bool) (c : State * Store.t) : State * Store.t :=
  if subscribed (fst c)
  then (onSnapshot captured (Store.snapshot (snd c)) (fst c), snd c)
  else c.

(** What the user does: a click on the start/stop button, or a click on
    the delete button of a session, answered in the confirmation box. *)
Inductive Event : Type :=
| Click (now : Z)
| Delete (confirmed : bool) (sessionId : nat).

Definition handle (e : Event) (c : State * Store.t) : State * Store.t :=
  match e with
  | Click now => onClick now (fst c) (snd c)
  | Delete confirmed i => deleteSession confirmed i (fst c) (snd c)
  end.

(** One event, followed by the snapshot that the write brings about. *)
Definition step (captured : bool) (c : State * Store.t) (e : Event)
    : State * Store.t :=
  deliver captured (handle e c).

Definition run (captured : bool) (es : list Event) (c : State * Store.t)
    : State * Store.t :=
  fold_left (step captured) es c.

(** The state shows the store: the list of sessions is the last
    snapshot and [isTracking] tells whether a session is open. *)
Definition synced (c : State * Store.t) : Prop :=
  sessions (fst c) = Store.snapshot (snd c) /\
  isTracking (fst c) = existsb is_open (Store.docs (snd c)).

End App.

(** ** Sample states *)
Module Scenarios.
Import App.

(** A state in which a session is open and the last snapshot shows it. *)
Definition tracking_session : Session :=
  {| id := 1; start_time := 1709208000000; end_time := None;
     duration := None; jobName := "Client Website Redesign" |}.

Definition tracking_store : Store.t :=
  {| Store.docs := [tracking_session]; Store.accepts_writes := true |}.

Definition tracking_state : State :=
  {| db := true; userId := Some "u1"%string; isAuthReady := true;
     sessions := Store.snapshot tracking_store; isTracking := true;
     jobInput := "Client Website Redesign"; error := None |}.

(** An idle state: the only session of the snapshot is completed. *)
Definition idle_session : Session :=
  {| id := 1; start_time := 1709208000000; end_time := Some 1709209800000;
     duration := Some 30; jobName := "Unspecified Project" |}.

Definition idle_store : Store.t :=
  {| Store.docs := [idle_session]; Store.accepts_writes := true |}.

Definition idle_state : State :=
  {| db := true; userId := Some "u1"%string; isAuthReady := true;
     sessions := Store.snapshot idle_store; isTracking := false;
     jobInput := ""; error := None |}.

End Scenarios.

(** ** The [groupedSessions] memo (lines 248 to 292) *)
Module Totals.
Import JSDate JSString JSDateText.

(** One entry of [groups]. *)
Record Group : Type := mkGroup {
  start : Z;
  sessions : list Session;
  totalMinutes : Z
}.

Definition push_session (s : Session) (g : Group) : Group :=
  {| start := start g; sessions := sessions g ++ [s];
     totalMinutes := totalMinutes g |}.

Definition add_minutes (n : Z) (g : Group) : Group :=
  {| start := start g; sessions := sessions g;
     totalMinutes := totalMinutes g + n |}.

(** The value of the memo: [{}] has neither field. *)
Record Result : Type := mkResult {
  sortedGroups : option (list Group);
  totalDurationMinutes : option Z
}.

(** The two variables the [forEach] loop updates. *)
Record Loop : Type := mkLoop {
  groups : JSObject.t Group;
  total : Z
}.

(** [(a, b) => new Date(b) - new Date(a)] *)
Definition newest_first (a b : string) : option Z :=
  match Date_of_string b, Date_of_string a with
  | Some tb, Some ta => Some (tb - ta)
  | _, _ => None
  end.

(** [periodStartDate.toISOString().split('T')[0]] *)
Definition periodKey (periodStartDate : Z) : string :=
  split_head "T" (toISOString periodStartDate).

Section Zone.
Variable LocalTZA : Z -> bool -> Z.

Definition getPeriodStart (totalPeriod : string) : Z -> Z :=
  if String.eqb totalPeriod "monthly" then
    dateHelpers.getMonthStart LocalTZA
  else if String.eqb totalPeriod "biweekly" then
    dateHelpers.getBiweekStart LocalTZA
  else dateHelpers.getWeekStart LocalTZA.

(** The body of [sessions.forEach] (lines 265 to 283). *)
Definition visit (totalPeriod : string) (acc : Loop) (session : Session)
    : Loop :=
  match duration session with
  | None => acc
  | Some minutes =>
      let periodStartDate := getPeriodStart totalPeriod (start_time session) in
      let key := periodKey periodStartDate in
      let groups1 :=
        match JSObject.get key (groups acc) with
        | None =>
            JSObject.set key
              {| start := periodStartDate; sessions := [];
                 totalMinutes := 0 |} (groups acc)
        | Some _ => groups acc
        end in
      let groups2 := JSObject.update key (push_session session) groups1 in
      let groups3 := JSObject.update key (add_minutes minutes) groups2 in
      {| groups := groups3; total := total acc + minutes |}
  end.

Definition run_loop (totalPeriod : string) (l : list Session) : Loop :=
  fold_left (visit totalPeriod) l {| groups := []; total := 0 |}.

(** [sortedGroupKeys.map(key => groups[key])]; every key is a property
    of [groups]. *)
Definition values_at (o : JSObject.t Group) (ks : list string) : list Group :=
  flat_map (fun key => match JSObject.get key o with
                       | Some g => [g]
                       | None => []
                       end) ks.

Definition groupedSessions (totalPeriod : string) (l : list Session)
    : Result :=
  match l with
  | [] => {| sortedGroups := None; totalDurationMinutes := None |}
  | _ :: _ =>
      let acc := run_loop totalPeriod l in
      let sortedGroupKeys :=
        JSArray.sort newest_first (JSObject.keys (groups acc)) in
      {| sortedGroups := Some (values_at (groups acc) sortedGroupKeys);
         totalDurationMinutes := Some (total acc) |}
  end.
End Zone.

(** [groupedSessions.totalDurationMinutes || 0] (line 292) *)
Definition totalMinutesAcrossAllPeriods (r : Result) : Z :=
  match totalDurationMinutes r with
  | Some n => if n =? 0 then 0 else n
  | None => 0
  end.

(** The groups the table shows (lines 413 and 414):
    [sortedGroups?.length > 0 ? sortedGroups.map(...) : (none)]. *)
Definition shownGroups (r : Result) : list Group :=
  match sortedGroups r with
  | Some gs => if (0 <? List.length gs)%nat then gs else []
  | None => []
  end.

(** *** Vocabulary of the statements about the aggregation *)

(** A session the loop counts: [session.duration !== null]. *)
Definition counted (s : Session) : bool :=
  match duration s with
  | Some _ => true
  | None => false
  end.

Definition minutes_of (s : Session) : Z :=
  match duration s with
  | Some n => n
  | None => 0
  end.

(** The sum of [durationMinutes] over a list of sessions. *)
Definition sum_minutes (l : list Session) : Z :=
  fold_right (fun s acc => minutes_of s + acc) 0 l.

(** The key of the bucket of a session. *)
Definition key_of (LocalTZA : Z -> bool -> Z) (totalPeriod : string)
    (s : Session) : string :=
  periodKey (getPeriodStart LocalTZA totalPeriod (start_time s)).

(** The sessions that belong to the bucket with key [k]. *)
Definition in_group (LocalTZA : Z -> bool -> Z) (totalPeriod : string)
    (k : string) (s : Session) : bool :=
  counted s && String.eqb (key_of LocalTZA totalPeriod s) k.

(** What the loop has stored under key [k] after the sessions [l]. *)
Definition group_of (LocalTZA : Z -> bool -> Z) (totalPeriod : string)
    (k : string) (l : list Session) : option Group :=
  match filter (in_group LocalTZA totalPeriod k) l with
  | [] => None
  | (s0 :: _) as ss =>
      Some {| start := getPeriodStart LocalTZA totalPeriod (start_time s0);
              sessions := ss;
              totalMinutes := sum_minutes ss |}
  end.

(** The instant of a key, as the comparator of the sort reads it. *)
Definition key_time (k : string) : Z :=
  match Date_of_string k with
  | Some v => v
  | None => 0
  end.

End Totals.

(** ** Vocabulary of the statements about job names *)
Module JobText.
Import JSString.

(** A string of white space only, the empty string included. *)
Fixpoint blank (s : string) : bool :=
  match s with
  | EmptyString => true
  | String c r => is_space c && blank r
  end.

(** A string of characters of ASCII, the strings on which [trim] is
    modelled. *)
Fixpoint ascii_only (s : string) : bool :=
  match s with
  | EmptyString => true
  | String c r => (nat_of_ascii c <? 128)%nat && ascii_only r
  end.

Definition first_char (s : string) : option ascii :=
  match s with
  | EmptyString => None
  | String c _ => Some c
  end.

Fixpoint last_char (s : string) : option ascii :=
  match s with
  | EmptyString => None
  | String c r =>
      match last_char r with
      | None => Some c
      | Some c' => Some c'
      end
  end.

End JobText.

(** * Properties *)

(** ** The calendar of ECMA-262 *)
Module JSDateFacts.
Import JSDate.

Ltac div_lia := Z.to_euclidean_division_equations; lia.

Lemma div_step4 y :
  (y + 1 - 1969) / 4 = (y - 1969) / 4 + (if y mod 4 =? 0 then 1 else 0).
Proof. destruct (Z.eqb_spec (y mod 4) 0); div_lia. Qed.

Lemma div_step100 y :
  (y + 1 - 1901) / 100 = (y - 1901) / 100 + (if y mod 100 =? 0 then 1 else 0).
Proof. destruct (Z.eqb_spec (y mod 100) 0); div_lia. Qed.

Lemma div_step400 y :
  (y + 1 - 1601) / 400 = (y - 1601) / 400 + (if y mod 400 =? 0 then 1 else 0).
Proof. destruct (Z.eqb_spec (y mod 400) 0); div_lia. Qed.

Lemma mod_100_4 y : y mod 100 = 0 -> y mod 4 = 0.
Proof. div_lia. Qed.

Lemma mod_400_100 y : y mod 400 = 0 -> y mod 100 = 0.
Proof. div_lia. Qed.

(** A year has as many days as separate its first day from the next
    year's. *)
Lemma DayFromYear_succ y : DayFromYear (y + 1) = DayFromYear y + DaysInYear y.
Proof.
  unfold DayFromYear, DaysInYear.
  rewrite div_step4, div_step100, div_step400.
  pose proof (mod_100_4 y). pose proof (mod_400_100 y).
  destruct (Z.eqb_spec (y mod 4) 0), (Z.eqb_spec (y mod 100) 0),
    (Z.eqb_spec (y mod 400) 0); cbn [negb]; lia.
Qed.

Lemma DaysInYear_bounds y : 365 <= DaysInYear y <= 366.
Proof.
  unfold DaysInYear.
  destruct (y mod 4 =? 0), (y mod 100 =? 0), (y mod 400 =? 0); simpl; lia.
Qed.

(** The first day of year [y] stays within two days of the mean
    Gregorian year, 146097/400 days, times [y - 1970]. *)
Lemma DayFromYear_mean y :
  146097 * (y - 1970) - 506 <= 400 * DayFromYear y
  <= 146097 * (y - 1970) + 589.
Proof. unfold DayFromYear. div_lia. Qed.

(** [YearFromTime t] is the year [y] with
    [TimeFromYear y <= t < TimeFromYear (y + 1)]. *)
Lemma YearFromTime_spec t :
  DayFromYear (YearFromTime t) <= Day t < DayFromYear (YearFromTime t + 1).
Proof.
  unfold YearFromTime.
  set (d := Day t). clearbody d.
  assert (Hy : 146097 * (400 * d / 146097) <= 400 * d
               < 146097 * (400 * d / 146097) + 146097) by div_lia.
  set (y := 1970 + 400 * d / 146097) in *.
  replace (400 * d / 146097) with (y - 1970) in Hy by (subst y; lia).
  clearbody y.
  pose proof (DayFromYear_mean (y - 1)).
  pose proof (DayFromYear_mean (y + 1 + 1)).
  destruct (Z.ltb_spec d (DayFromYear y)).
  - replace (y - 1 + 1) with y by lia. lia.
  - destruct (Z.leb_spec (DayFromYear (y + 1)) d); lia.
Qed.

Lemma DayFromYear_lt y1 y2 : y1 < y2 -> DayFromYear y1 < DayFromYear y2.
Proof.
  intros H. replace y2 with (y1 + 1 + (y2 - y1 - 1)) by lia.
  assert (0 <= y2 - y1 - 1) as Hn by lia. revert Hn.
  generalize (y2 - y1 - 1). clear H y2.
  apply (natlike_ind (fun n => DayFromYear y1 < DayFromYear (y1 + 1 + n))).
  - rewrite Z.add_0_r, DayFromYear_succ. pose proof (DaysInYear_bounds y1). lia.
  - intros n Hn IH. replace (y1 + 1 + Z.succ n) with (y1 + 1 + n + 1) by lia.
    rewrite DayFromYear_succ. pose proof (DaysInYear_bounds (y1 + 1 + n)). lia.
Qed.

Lemma DayFromYear_le y1 y2 : y1 <= y2 -> DayFromYear y1 <= DayFromYear y2.
Proof.
  intros H. destruct (Z.eq_dec y1 y2) as [-> | N]; [lia |].
  apply Z.lt_le_incl, DayFromYear_lt. lia.
Qed.

Lemma YearFromTime_unique t y :
  DayFromYear y <= Day t < DayFromYear (y + 1) -> YearFromTime t = y.
Proof.
  intros H. pose proof (YearFromTime_spec t) as S.
  destruct (Z.lt_trichotomy (YearFromTime t) y) as [L | [E | G]];
    [| exact E |].
  - pose proof (DayFromYear_le (YearFromTime t + 1) y). lia.
  - pose proof (DayFromYear_le (y + 1) (YearFromTime t)). lia.
Qed.

Lemma DayWithinYear_bounds t :
  0 <= DayWithinYear t < DaysInYear (YearFromTime t).
Proof.
  unfold DayWithinYear. pose proof (YearFromTime_spec t) as H.
  rewrite DayFromYear_succ in H. lia.
Qed.

Lemma InLeapYear_cases t :
  (InLeapYear t = 0 /\ DaysInYear (YearFromTime t) = 365) \/
  (InLeapYear t = 1 /\ DaysInYear (YearFromTime t) = 366).
Proof.
  unfold InLeapYear. pose proof (DaysInYear_bounds (YearFromTime t)).
  destruct (Z.eqb_spec (DaysInYear (YearFromTime t)) 365); lia.
Qed.

Lemma MonthFromTime_bounds t : 0 <= MonthFromTime t <= 11.
Proof.
  unfold MonthFromTime.
  repeat match goal with
         | |- context [if ?b then _ else _] => destruct b
         end; lia.
Qed.

(** The day number of a date with the year and month of [t]. *)
Lemma MakeDay_fields t dt :
  MakeDay (YearFromTime t) (MonthFromTime t) dt = Day t - DateFromTime t + dt.
Proof.
  pose proof (MonthFromTime_bounds t) as Hm.
  unfold MakeDay.
  replace (MonthFromTime t / 12) with 0 by div_lia.
  replace (MonthFromTime t mod 12) with (MonthFromTime t) by div_lia.
  rewrite Z.add_0_r.
  fold (InLeapYear t).
  unfold DateFromTime, DayWithinYear.
  generalize (InLeapYear t) as leap. intros leap.
  revert Hm. generalize (MonthFromTime t) as m. intros m Hm.
  assert (M : m = 0 \/ m = 1 \/ m = 2 \/ m = 3 \/ m = 4 \/ m = 5 \/ m = 6 \/
              m = 7 \/ m = 8 \/ m = 9 \/ m = 10 \/ m = 11) by lia.
  repeat (destruct M as [-> | M]; [cbn [DaysBeforeMonth]; lia |]).
  subst m. cbn [DaysBeforeMonth]. lia.
Qed.

Ltac month_cases m Hm :=
  let M := fresh "M" in
  assert (M : m = 0 \/ m = 1 \/ m = 2 \/ m = 3 \/ m = 4 \/ m = 5 \/ m = 6 \/
              m = 7 \/ m = 8 \/ m = 9 \/ m = 10 \/ m = 11) by lia;
  repeat (destruct M as [M | M]); subst m.

Ltac split_ltb :=
  repeat match goal with
         | |- context [?a <? ?b] => destruct (Z.ltb_spec a b)
         | H : context [?a <? ?b] |- _ => destruct (Z.ltb_spec a b)
         end.

Lemma DaysInMonth_bounds leap mn :
  0 <= leap <= 1 -> 0 <= mn <= 11 -> 28 <= DaysInMonth leap mn <= 31.
Proof.
  intros Hl Hm. unfold DaysInMonth.
  month_cases mn Hm; cbn [DaysBeforeMonth DaysInMonth];
    lia.
Qed.

(** The day of the year lies in the month that [MonthFromTime] names,
    and [DateFromTime] counts from the first day of that month. *)
Lemma month_table t :
  DaysBeforeMonth (InLeapYear t) (MonthFromTime t) <= DayWithinYear t
  < DaysBeforeMonth (InLeapYear t) (MonthFromTime t)
    + DaysInMonth (InLeapYear t) (MonthFromTime t)
  /\ DateFromTime t
     = DayWithinYear t - DaysBeforeMonth (InLeapYear t) (MonthFromTime t) + 1.
Proof.
  pose proof (DayWithinYear_bounds t) as Hd.
  pose proof (InLeapYear_cases t) as Hl.
  unfold DateFromTime, MonthFromTime in *.
  revert Hd Hl. generalize (DayWithinYear t) as d, (InLeapYear t) as leap.
  intros d leap Hd Hl. unfold DaysInMonth.
  split_ltb;
    cbn [DaysBeforeMonth DaysInMonth]; lia.
Qed.

Lemma DateFromTime_bounds t : 1 <= DateFromTime t <= 31.
Proof.
  pose proof (month_table t) as [H1 H2].
  pose proof (MonthFromTime_bounds t) as Hm.
  pose proof (InLeapYear_cases t) as Hl.
  assert (0 <= InLeapYear t <= 1) as Hl' by lia.
  pose proof (DaysInMonth_bounds _ _ Hl' Hm). lia.
Qed.

(** A day of the same month: the time value [t'] that lies [dt - 1] days
    after the first of the month of [t] has the year and month of [t]
    and date [dt]. *)
Lemma fields_same_month t t' dt :
  1 <= dt <= DaysInMonth (InLeapYear t) (MonthFromTime t) ->
  Day t' = Day t - DateFromTime t + dt ->
  YearFromTime t' = YearFromTime t /\
  MonthFromTime t' = MonthFromTime t /\
  DateFromTime t' = dt.
Proof.
  intros Hdt Hday.
  pose proof (month_table t) as [Hin Hdate].
  pose proof (DayWithinYear_bounds t) as Hd.
  pose proof (MonthFromTime_bounds t) as Hm.
  pose proof (InLeapYear_cases t) as Hl.
  assert (Hy : YearFromTime t' = YearFromTime t).
  { apply YearFromTime_unique. rewrite DayFromYear_succ.
    unfold DayWithinYear in *.
    assert (DaysBeforeMonth (InLeapYear t) (MonthFromTime t)
            + DaysInMonth (InLeapYear t) (MonthFromTime t)
            <= DaysInYear (YearFromTime t)).
    { revert Hl Hm. generalize (InLeapYear t) as leap, (MonthFromTime t) as m.
      intros leap m Hl Hm. unfold DaysInMonth.
      month_cases m Hm;
        cbn [DaysBeforeMonth DaysInMonth]; lia. }
    assert (0 <= DaysBeforeMonth (InLeapYear t) (MonthFromTime t)).
    { revert Hl Hm. generalize (InLeapYear t) as leap, (MonthFromTime t) as m.
      intros leap m Hl Hm.
      month_cases m Hm; cbn [DaysBeforeMonth]; lia. }
    lia. }
  assert (Hleap : InLeapYear t' = InLeapYear t).
  { unfold InLeapYear. now rewrite Hy. }
  assert (Hdwy : DayWithinYear t'
                 = DaysBeforeMonth (InLeapYear t) (MonthFromTime t) + dt - 1).
  { unfold DayWithinYear in *. rewrite Hy. lia. }
  assert (Hmon : MonthFromTime t' = MonthFromTime t).
  { unfold MonthFromTime at 1. rewrite Hdwy, Hleap.
    revert Hdt Hl Hm.
    generalize (InLeapYear t) as leap, (MonthFromTime t) as m.
    intros leap m Hdt Hl Hm. unfold DaysInMonth in Hdt.
    month_cases m Hm;
      cbn [DaysBeforeMonth DaysInMonth] in *;
      split_ltb; lia. }
  split; [exact Hy | split; [exact Hmon |]].
  pose proof (month_table t') as [_ Hdate'].
  rewrite Hdate', Hdwy, Hleap, Hmon. lia.
Qed.

End JSDateFacts.

(** ** Period starts *)
Module PeriodFacts.
Import JSDate JSDateFacts dateHelpers.

Lemma Day_MakeDate n r : 0 <= r < msPerDay -> Day (MakeDate n r) = n.
Proof. unfold Day, MakeDate, msPerDay. intros H. div_lia. Qed.

Lemma TimeWithinDay_bounds t : 0 <= TimeWithinDay t < msPerDay.
Proof. unfold TimeWithinDay, msPerDay. div_lia. Qed.

(** Year, month and date are functions of the day number. *)
Lemma fields_of_Day a b :
  Day a = Day b ->
  YearFromTime a = YearFromTime b /\
  MonthFromTime a = MonthFromTime b /\
  DateFromTime a = DateFromTime b.
Proof.
  intros E.
  assert (Y : YearFromTime a = YearFromTime b)
    by (unfold YearFromTime; now rewrite E).
  assert (M : MonthFromTime a = MonthFromTime b)
    by (unfold MonthFromTime, DayWithinYear, InLeapYear; now rewrite E, Y).
  repeat split; trivial.
  unfold DateFromTime, DayWithinYear, InLeapYear. now rewrite E, Y, M.
Qed.

Section AnyZone.
Variable zone : Z -> bool -> Z.

(** Midnight, local time, of the day of [t]. *)
Lemma setHours_midnight t :
  setHours zone t 0 0 0 0
  = UTC zone (MakeDate (Day (LocalTime zone t)) 0).
Proof. reflexivity. Qed.

Lemma setDate_value t dt :
  setDate zone t dt
  = UTC zone
      (MakeDate (Day (LocalTime zone t) - DateFromTime (LocalTime zone t) + dt)
                (TimeWithinDay (LocalTime zone t))).
Proof. unfold setDate. now rewrite MakeDay_fields. Qed.

(** In a regular zone the biweek start is the local time, taken to UTC,
    of a time of the first or the sixteenth of the month of [d]. *)
Lemma getBiweekStart_form d :
  regular_zone zone ->
  exists x,
    getBiweekStart zone d = UTC zone x /\
    Day x = Day (LocalTime zone d) - DateFromTime (LocalTime zone d)
            + (if DateFromTime (LocalTime zone d) <=? 15 then 1 else 16).
Proof.
  intros [R _]. unfold getBiweekStart.
  rewrite setDate_value, setHours_midnight. unfold getDate.
  set (l := LocalTime zone d).
  set (l1 := LocalTime zone (UTC zone (MakeDate (Day l) 0))).
  assert (D1 : Day l1 = Day l).
  { subst l1. rewrite R. apply Day_MakeDate. unfold msPerDay. lia. }
  destruct (fields_of_Day _ _ D1) as (_ & _ & E). rewrite E, D1.
  eexists. split; [reflexivity |].
  apply Day_MakeDate, TimeWithinDay_bounds.
Qed.
End AnyZone.

Section FixedZone.
Variable tza : Z.

Lemma LocalTime_fixed t : LocalTime (fixed_zone tza) t = t + tza.
Proof. reflexivity. Qed.

Lemma UTC_fixed t : UTC (fixed_zone tza) t = t - tza.
Proof. reflexivity. Qed.

Lemma regular_fixed_zone :
  - msPerDay <= tza <= msPerDay -> regular_zone (fixed_zone tza).
Proof.
  intros H. split.
  - intros x. rewrite LocalTime_fixed, UTC_fixed. f_equal. lia.
  - intros t b. exact H.
Qed.

(** With a fixed offset the week start is local midnight of the day
    that lies [getDay] days before the day of [d]. *)
Lemma getWeekStart_value d :
  getWeekStart (fixed_zone tza) d
  = (Day (d + tza) - WeekDay (d + tza)) * msPerDay - tza.
Proof.
  unfold getWeekStart. rewrite setHours_midnight, setDate_value.
  unfold getDate, getDay. rewrite !UTC_fixed, !LocalTime_fixed.
  set (n := Day (d + tza) - DateFromTime (d + tza)
            + (DateFromTime (d + tza) - WeekDay (d + tza))).
  replace (MakeDate n (TimeWithinDay (d + tza)) - tza + tza)
    with (MakeDate n (TimeWithinDay (d + tza))) by lia.
  rewrite Day_MakeDate by apply TimeWithinDay_bounds.
  unfold MakeDate. subst n. rewrite Z.add_0_r. f_equal. f_equal. lia.
Qed.
End FixedZone.

(** A zone with daylight saving time is regular, too. *)
Lemma regular_pacific_2024 : regular_zone pacific_2024.
Proof.
  split.
  - intros x. unfold LocalTime, UTC, pacific_2024, msPerHour.
    destruct (Z.ltb_spec x 1730599200000);
      match goal with
      | |- context [?a <? ?b] => destruct (Z.ltb_spec a b)
      end; f_equal; lia.
  - intros t b. unfold pacific_2024, msPerDay, msPerHour.
    destruct b, (t <? 1730624400000), (t <? 1730599200000); lia.
Qed.

(** C3, as stated, fails where the offset of the zone changes between
    the week start and the date.  In Los Angeles, from Saturday
    9 November 2024, 23:30 PST, [getWeekStart] goes back to Sunday
    3 November, 00:00 PDT, the night the clocks were set back by an hour:
    seven days and thirty minutes. *)
Lemma getWeekStart_across_clock_change :
  getWeekStart pacific_2024 1731223800000 = 1730617200000 /\
  getDay pacific_2024 1730617200000 = 0 /\
  1731223800000 - getWeekStart pacific_2024 1731223800000
  = 7 * msPerDay + 30 * msPerMinute /\
  ~ (1731223800000 - getWeekStart pacific_2024 1731223800000 < 7 * msPerDay).
Proof. repeat split. vm_compute. discriminate. Qed.

(** C3, amended.  In a zone with a fixed offset, for every date [d],
    [getWeekStart d] is a Sunday ([getDay] is 0) at local midnight
    (hours, minutes, seconds and milliseconds are 0), it is not after
    [d], and less than seven days separate it from [d]. *)
Theorem getWeekStart_most_recent_sunday (tza d : Z) :
  let w := getWeekStart (fixed_zone tza) d in
  getDay (fixed_zone tza) w = 0 /\
  0 <= d - w < 7 * msPerDay /\
  getHours (fixed_zone tza) w = 0 /\ getMinutes (fixed_zone tza) w = 0 /\
  getSeconds (fixed_zone tza) w = 0 /\ getMilliseconds (fixed_zone tza) w = 0.
Proof.
  cbv zeta. rewrite getWeekStart_value.
  unfold getDay, getHours, getMinutes, getSeconds, getMilliseconds.
  rewrite !LocalTime_fixed.
  unfold HourFromTime, MinFromTime, SecFromTime, msFromTime, WeekDay,
    Day, msPerDay, msPerHour, msPerMinute, msPerSecond.
  set (l := d + tza).
  replace ((l / 86400000 - (l / 86400000 + 4) mod 7) * 86400000 - tza + tza)
    with ((l / 86400000 - (l / 86400000 + 4) mod 7) * 86400000) by lia.
  set (n := l / 86400000 - (l / 86400000 + 4) mod 7).
  assert (Hd : 0 <= d - (n * 86400000 - tza) < 7 * 86400000)
    by (subst n l; div_lia).
  assert (Hn : (n * 86400000 / 86400000 + 4) mod 7 = 0).
  { rewrite Z.div_mul by lia. subst n. div_lia. }
  clearbody n. repeat split; try lia; div_lia.
Qed.

End PeriodFacts.

(** ** Decimal numerals *)
Module JSStringFacts.
Import JSString JSDateText.

Local Open Scope string_scope.

#[local] Arguments digit_char : simpl never.
#[local] Arguments Z.pow : simpl never.
#[local] Arguments Z.mul : simpl never.
#[local] Arguments Z.div : simpl never.
#[local] Arguments Z.modulo : simpl never.

Lemma digit_cases d :
  (0 <= d <= 9)%Z ->
  d = 0%Z \/ d = 1%Z \/ d = 2%Z \/ d = 3%Z \/ d = 4%Z \/ d = 5%Z \/ d = 6%Z \/
  d = 7%Z \/ d = 8%Z \/ d = 9%Z.
Proof. lia. Qed.

Ltac digit_split d H :=
  let C := fresh "C" in
  pose proof (digit_cases d H) as C;
  repeat (destruct C as [C | C]); rewrite C.

Lemma digit_val_digit_char d :
  (0 <= d <= 9)%Z -> digit_val (digit_char d) = Some d.
Proof. intros H. digit_split d H; reflexivity. Qed.

Lemma mod10_digit n : (0 <= n mod 10 <= 9)%Z.
Proof. Z.to_euclidean_division_equations; lia. Qed.

Lemma append_assoc (a b c : string) : (a ++ b) ++ c = a ++ (b ++ c).
Proof. induction a as [| x a IH]; simpl; [reflexivity | now rewrite IH]. Qed.

Lemma append_nil_r (a : string) : a ++ "" = a.
Proof. induction a as [| x a IH]; simpl; [reflexivity | now rewrite IH]. Qed.

Lemma length_fixed k : forall n acc,
  length (fixed k n acc) = (k + length acc)%nat.
Proof.
  induction k as [| k IH]; intros n acc; cbn [fixed]; [reflexivity |].
  rewrite IH. cbn [length]. lia.
Qed.

Lemma fixed_app k : forall n acc, fixed k n acc = fixed k n "" ++ acc.
Proof.
  induction k as [| k IH]; intros n acc; cbn [fixed]; [reflexivity |].
  rewrite IH. rewrite (IH _ (String _ "")).
  rewrite append_assoc. reflexivity.
Qed.

Lemma has_char_app c s1 s2 :
  has_char c (s1 ++ s2) = has_char c s1 || has_char c s2.
Proof.
  induction s1 as [| a s1 IH]; simpl; [reflexivity |].
  rewrite IH. apply orb_assoc.
Qed.

(** A numeral holds no character other than digits. *)
Lemma has_char_fixed c k :
  digit_val c = None ->
  forall n acc, has_char c (fixed k n acc) = has_char c acc.
Proof.
  intros Hc. induction k as [| k IH]; intros n acc; [reflexivity |].
  cbn [fixed]. rewrite IH. cbn [has_char].
  destruct (Ascii.eqb_spec (digit_char (n mod 10)) c) as [E | N];
    [| reflexivity].
  rewrite <- E, digit_val_digit_char in Hc by apply mod10_digit.
  discriminate.
Qed.

Lemma split_head_app c s1 s2 :
  has_char c s1 = false -> split_head c (s1 ++ s2) = s1 ++ split_head c s2.
Proof.
  induction s1 as [| a s1 IH]; simpl; intros H; [reflexivity |].
  apply orb_false_iff in H as [Ha Hs]. rewrite Ha. now rewrite IH.
Qed.

(** Padding with zeros. *)
Lemma fixed_zero_S k acc : fixed (S k) 0 acc = fixed k 0 (String "0" acc).
Proof. reflexivity. Qed.

Lemma fixed_zero_comm k : forall acc,
  fixed k 0 (String "0" acc) = String "0" (fixed k 0 acc).
Proof.
  induction k as [| k IH]; intros acc; [reflexivity |].
  rewrite !fixed_zero_S. now rewrite IH.
Qed.

Lemma filler_zero k :
  filler k "0" "" = fixed k 0 "" /\ filler k "0" "0" = fixed k 0 "".
Proof.
  induction k as [| k [IH1 IH2]]; [split; reflexivity |].
  rewrite fixed_zero_S, fixed_zero_comm. cbn [filler]. rewrite IH1.
  split; reflexivity.
Qed.

Lemma fixed_extend k : forall j n acc,
  (0 <= n < 10 ^ Z.of_nat k)%Z ->
  fixed (j + k) n acc = fixed j 0 (fixed k n acc).
Proof.
  induction k as [| k IH]; intros j n acc H.
  - rewrite Nat.add_0_r. change (10 ^ Z.of_nat 0)%Z with 1%Z in H.
    cbn [fixed]. now replace n with 0%Z by lia.
  - rewrite Nat.add_succ_r. cbn [fixed]. apply IH.
    rewrite Nat2Z.inj_succ, Z.pow_succ_r in H by lia.
    Z.to_euclidean_division_equations; lia.
Qed.

(** The runtime's numeral of [n] is the numeral of some width [k] that
    has no leading zero. *)
Lemma decimal_aux_fixed fuel : forall n acc,
  (1 <= fuel)%nat ->
  (0 <= n < 10 ^ Z.of_nat fuel)%Z ->
  exists k, (1 <= k <= fuel)%nat /\
            decimal_aux fuel n acc = fixed k n acc /\
            (n < 10 ^ Z.of_nat k)%Z /\
            (k = 1%nat \/ 10 ^ (Z.of_nat k - 1) <= n)%Z.
Proof.
  induction fuel as [| fuel IH]; intros n acc Hf H; [lia |].
  cbn [decimal_aux]. destruct (Z.ltb_spec n 10) as [L | G].
  - exists 1%nat. cbn [fixed]. change (10 ^ Z.of_nat 1)%Z with 10%Z.
    repeat split; lia.
  - rewrite Nat2Z.inj_succ, Z.pow_succ_r in H by lia.
    assert (Hq : (1 <= n / 10 < 10 ^ Z.of_nat fuel)%Z)
      by (Z.to_euclidean_division_equations; lia).
    assert (Hf' : (1 <= fuel)%nat).
    { destruct fuel; [change (10 ^ Z.of_nat 0)%Z with 1%Z in Hq; lia | lia]. }
    destruct (IH (n / 10)%Z (String (digit_char (n mod 10)) acc) Hf')
      as (k & Hk & E & U & Lo); [lia |].
    exists (S k). rewrite E. cbn [fixed].
    rewrite Nat2Z.inj_succ, Z.pow_succ_r by lia.
    repeat split; try lia.
    + Z.to_euclidean_division_equations; lia.
    + right. replace (Z.succ (Z.of_nat k) - 1)%Z with (Z.of_nat k) by lia.
      destruct Lo as [-> | Lo]; [change (10 ^ Z.of_nat 1)%Z with 10%Z; lia |].
      replace (Z.of_nat k) with (Z.succ (Z.of_nat k - 1)) at 1 by lia.
      rewrite Z.pow_succ_r by lia.
      Z.to_euclidean_division_equations; lia.
Qed.

Lemma decimal_fuel n :
  (0 <= n)%Z -> (n < 10 ^ Z.of_nat (S (Z.to_nat (Z.log2 n))))%Z.
Proof.
  intros H. rewrite Nat2Z.inj_succ, Z2Nat.id by apply Z.log2_nonneg.
  destruct (Z.eq_dec n 0) as [-> | N]; [reflexivity |].
  destruct (Z.log2_spec n) as [_ U]; [lia |].
  eapply Z.lt_le_trans; [exact U |].
  apply Z.pow_le_mono_l. lia.
Qed.

Lemma decimal_fixed n :
  (0 <= n)%Z ->
  exists k, (1 <= k)%nat /\ decimal n = fixed k n "" /\
            (n < 10 ^ Z.of_nat k)%Z /\
            (k = 1%nat \/ 10 ^ (Z.of_nat k - 1) <= n)%Z.
Proof.
  intros H.
  destruct (decimal_aux_fixed _ n "" (le_n_S _ _ (Nat.le_0_l _))
              (conj H (decimal_fuel n H))) as (k & Hk & E & U & Lo).
  exists k. repeat split; trivial; lia.
Qed.

(** Padding the numeral of [n] to a width that holds it gives the
    numeral of that width. *)
Lemma pad_fixed w n :
  (1 <= w)%nat ->
  (0 <= n < 10 ^ Z.of_nat w)%Z -> pad w n = fixed w n "".
Proof.
  intros W [H0 Hw]. unfold pad, Number_toString, padStart.
  destruct (Z.ltb_spec n 0) as [? | _]; [lia |].
  destruct (decimal_fixed n H0) as (k & Hk & -> & U & Lo).
  rewrite length_fixed. cbn [length]. rewrite Nat.add_0_r.
  assert (Hkw : (k <= w)%nat).
  { destruct Lo as [-> | Lo].
    - exact W.
    - destruct (Nat.le_gt_cases k w) as [? | Gt]; [trivial |].
      assert (10 ^ Z.of_nat w <= 10 ^ (Z.of_nat k - 1))%Z
        by (apply Z.pow_le_mono_r; lia).
      lia. }
  destruct (Nat.leb_spec w k) as [Le | Lt].
  - now replace w with k by lia.
  - destruct (filler_zero (w - k)) as [_ ->].
    rewrite <- fixed_app.
    replace w with ((w - k) + k)%nat at 2 by lia.
    symmetry. apply fixed_extend. lia.
Qed.

Lemma read_digits_snoc k : forall v s,
  read_digits (S k) v s =
  match read_digits k v s with
  | Some (a, String c r) =>
      match digit_val c with
      | Some d => Some (10 * a + d, r)%Z
      | None => None
      end
  | _ => None
  end.
Proof.
  induction k as [| k IH]; intros v s.
  - cbn [read_digits]. destruct s as [| c r]; [reflexivity |].
    destruct (digit_val c); reflexivity.
  - change (read_digits (S (S k)) v s) with
      (match s with
       | String c r =>
           match digit_val c with
           | Some d => read_digits (S k) (10 * v + d)%Z r
           | None => None
           end
       | EmptyString => None
       end).
    destruct s as [| c r]; [reflexivity |].
    change (read_digits (S k) v (String c r)) with
      (match digit_val c with
       | Some d => read_digits k (10 * v + d)%Z r
       | None => None
       end).
    destruct (digit_val c); [apply IH | reflexivity].
Qed.

(** Reading back a numeral of width [k]. *)
Lemma read_digits_fixed k : forall v n rest,
  (0 <= n)%Z ->
  read_digits k v (fixed k n rest)
  = Some (v * 10 ^ Z.of_nat k + n mod 10 ^ Z.of_nat k, rest)%Z.
Proof.
  induction k as [| k IH]; intros v n rest Hn.
  - cbn [read_digits fixed]. change (10 ^ Z.of_nat 0)%Z with 1%Z.
    rewrite Z.mod_1_r. do 2 f_equal. lia.
  - rewrite read_digits_snoc. cbn [fixed].
    rewrite IH by (Z.to_euclidean_division_equations; lia).
    rewrite digit_val_digit_char by apply mod10_digit.
    do 2 f_equal.
    rewrite Nat2Z.inj_succ, Z.pow_succ_r by lia.
    rewrite (Z.mul_comm 10 (10 ^ Z.of_nat k)).
    assert (P : (0 < 10 ^ Z.of_nat k)%Z) by (apply Z.pow_pos_nonneg; lia).
    rewrite (Z.mul_comm (10 ^ Z.of_nat k) 10).
    rewrite (Z.rem_mul_r n 10 (10 ^ Z.of_nat k)) by lia.
    lia.
Qed.

End JSStringFacts.

(** ** Group keys: the date part of [toISOString] and its reading by
       [new Date] *)
Module KeyFacts.
Import JSDate JSDateFacts JSString JSDateText JSStringFacts Totals.

Local Open Scope string_scope.

#[local] Arguments digit_char : simpl never.

(** The years of valid time values. *)
Lemma year_range t :
  valid_time t -> (-271821 <= YearFromTime t <= 275760)%Z.
Proof.
  unfold valid_time, maxTime. intros H.
  pose proof (YearFromTime_spec t) as S.
  pose proof (DayFromYear_mean (YearFromTime t)).
  pose proof (DayFromYear_mean (YearFromTime t + 1)).
  unfold Day, msPerDay in S. div_lia.
Qed.

Lemma yearString_fixed y :
  (-999999 <= y <= 999999)%Z ->
  yearString y =
  if ((0 <=? y) && (y <=? 9999))%Z then fixed 4 y ""
  else String (if (y <? 0)%Z then "-"%char else "+"%char)
              (fixed 6 (Z.abs y) "").
Proof.
  intros H. unfold yearString.
  destruct (Z.leb_spec 0 y), (Z.leb_spec y 9999); cbn [andb];
    try (rewrite pad_fixed by (change (10 ^ Z.of_nat 4)%Z with 10000%Z; lia);
         reflexivity);
    (rewrite pad_fixed by (change (10 ^ Z.of_nat 6)%Z with 1000000%Z; lia));
    destruct (y <? 0)%Z; reflexivity.
Qed.

Lemma read_year_digit d r :
  (0 <= d <= 9)%Z ->
  read_year (String (digit_char d) r)
  = read_digits 4 0 (String (digit_char d) r).
Proof. intros H. digit_split d H; reflexivity. Qed.

Lemma read_year_yearString y rest :
  (-999999 <= y <= 999999)%Z ->
  read_year (yearString y ++ rest) = Some (y, rest).
Proof.
  intros H. rewrite yearString_fixed by exact H.
  destruct (Z.leb_spec 0 y) as [P | N]; [destruct (Z.leb_spec y 9999) |];
    cbn [andb].
  - rewrite <- fixed_app.
    assert (E : read_year (fixed 4 y rest) = read_digits 4 0 (fixed 4 y rest)).
    { cbn [fixed]. apply read_year_digit, mod10_digit. }
    rewrite E, read_digits_fixed by lia.
    change (10 ^ Z.of_nat 4)%Z with 10000%Z.
    rewrite Z.mod_small by lia. reflexivity.
  - destruct (Z.ltb_spec y 0); [lia |].
    change (String "+" (fixed 6 (Z.abs y) "") ++ rest)
      with (String "+" (fixed 6 (Z.abs y) "" ++ rest)).
    rewrite <- fixed_app.
    change (read_year (String "+" (fixed 6 (Z.abs y) rest)))
      with (read_digits 6 0 (fixed 6 (Z.abs y) rest)).
    rewrite read_digits_fixed by lia.
    change (10 ^ Z.of_nat 6)%Z with 1000000%Z.
    rewrite Z.mod_small by lia. do 2 f_equal. lia.
  - destruct (Z.ltb_spec y 0); [| lia].
    change (String "-" (fixed 6 (Z.abs y) "") ++ rest)
      with (String "-" (fixed 6 (Z.abs y) "" ++ rest)).
    rewrite <- fixed_app.
    change (read_year (String "-" (fixed 6 (Z.abs y) rest)))
      with (match read_digits 6 0 (fixed 6 (Z.abs y) rest) with
            | Some (y0, r') => if (y0 =? 0)%Z then None else Some (- y0, r')%Z
            | None => None
            end).
    rewrite read_digits_fixed by lia.
    change (10 ^ Z.of_nat 6)%Z with 1000000%Z.
    rewrite Z.mod_small by lia.
    destruct (Z.eqb_spec (0 * 1000000 + Z.abs y) 0); [lia |].
    do 2 f_equal. lia.
Qed.

Lemma has_char_T_yearString y :
  (-999999 <= y <= 999999)%Z -> has_char "T" (yearString y) = false.
Proof.
  intros H. rewrite yearString_fixed by exact H.
  destruct ((0 <=? y) && (y <=? 9999))%Z.
  - now rewrite has_char_fixed.
  - cbn [has_char]. rewrite has_char_fixed by reflexivity.
    destruct (y <? 0)%Z; reflexivity.
Qed.

Lemma split_head_cons_ne c a r :
  Ascii.eqb a c = false ->
  split_head c (String a r) = String a (split_head c r).
Proof. intros H. cbn [split_head]. now rewrite H. Qed.

Lemma split_head_cons_eq c r : split_head c (String c r) = "".
Proof. cbn [split_head]. now rewrite Ascii.eqb_refl. Qed.

(** The key of a period start is the text of its UTC date. *)
Lemma periodKey_dateText t :
  valid_time t ->
  periodKey t
  = dateText (YearFromTime t) (MonthFromTime t + 1) (DateFromTime t).
Proof.
  intros V. pose proof (year_range t V) as Hy.
  pose proof (MonthFromTime_bounds t) as Hm.
  pose proof (DateFromTime_bounds t) as Hd.
  unfold periodKey, toISOString, dateText.
  rewrite !(pad_fixed 2 (_ + 1)), !(pad_fixed 2 (DateFromTime t)) by
    (try (change (10 ^ Z.of_nat 2)%Z with 100%Z); lia).
  cbn [append].
  rewrite split_head_app by (apply has_char_T_yearString; lia).
  f_equal.
  rewrite split_head_cons_ne by reflexivity. f_equal.
  rewrite split_head_app by now rewrite has_char_fixed.
  rewrite split_head_cons_ne by reflexivity.
  rewrite split_head_app by now rewrite has_char_fixed.
  rewrite split_head_cons_eq, append_nil_r.
  symmetry. apply fixed_app.
Qed.

Lemma read_char_same c r : read_char c (String c r) = Some r.
Proof. unfold read_char. now rewrite Ascii.eqb_refl. Qed.

(** Reading the text of a date gives midnight UTC of that date. *)
Lemma Date_of_dateText y m d :
  (-999999 <= y <= 999999)%Z -> (1 <= m <= 12)%Z -> (1 <= d <= 31)%Z ->
  Date_of_string (dateText y m d)
  = let tv := MakeDate (MakeDay y (m - 1) d) 0 in
    if valid_timeb tv then Some tv else None.
Proof.
  intros Hy Hm Hd. unfold Date_of_string, dateText.
  rewrite read_year_yearString by exact Hy.
  rewrite read_char_same, read_digits_fixed by lia.
  rewrite read_char_same, read_digits_fixed by lia.
  change (10 ^ Z.of_nat 2)%Z with 100%Z.
  rewrite !Z.mod_small by lia.
  replace (0 * 100 + m)%Z with m by lia.
  replace (0 * 100 + d)%Z with d by lia.
  destruct (Z.leb_spec 1 m), (Z.leb_spec m 12), (Z.leb_spec 1 d),
    (Z.leb_spec d 31); try lia.
  reflexivity.
Qed.

(** [new Date(key)] for the key of a valid period start [t] is midnight
    UTC of the day of [t]. *)
Lemma Date_of_periodKey t :
  valid_time t -> Date_of_string (periodKey t) = Some (Day t * msPerDay)%Z.
Proof.
  intros V. rewrite periodKey_dateText by exact V.
  pose proof (year_range t V) as Hy.
  pose proof (MonthFromTime_bounds t) as Hm.
  pose proof (DateFromTime_bounds t) as Hd.
  rewrite Date_of_dateText by lia. cbv zeta.
  replace (MonthFromTime t + 1 - 1)%Z with (MonthFromTime t) by lia.
  rewrite MakeDay_fields.
  replace (Day t - DateFromTime t + DateFromTime t)%Z with (Day t) by lia.
  unfold MakeDate. rewrite Z.add_0_r.
  assert (B : valid_timeb (Day t * msPerDay) = true).
  { unfold valid_timeb, valid_time, maxTime, Day, msPerDay in *.
    apply andb_true_intro. split; apply Z.leb_le; div_lia. }
  now rewrite B.
Qed.

(** Valid period starts with equal keys lie on the same UTC day. *)
Lemma periodKey_inj a b :
  valid_time a -> valid_time b -> periodKey a = periodKey b -> Day a = Day b.
Proof.
  intros Va Vb E.
  pose proof (Date_of_periodKey a Va) as Ha.
  pose proof (Date_of_periodKey b Vb) as Hb.
  rewrite E, Hb in Ha. injection Ha as Ha. unfold msPerDay in Ha. lia.
Qed.

End KeyFacts.

(** ** Biweekly periods *)
Module BiweekFacts.
Import JSDate JSDateFacts dateHelpers PeriodFacts KeyFacts Totals.

(** C4.  In a regular zone, for every date [d], [getBiweekStart d] has
    day of month 1 when the day of [d] is at most 15 and 16 otherwise,
    in the month and year of [d]; and two time values on day 15 and on
    day 16 of one month have biweek starts with different group keys
    (the biweek starts being valid dates, which [toISOString] demands). *)
Theorem getBiweekStart_first_or_sixteenth (zone : Z -> bool -> Z) :
  regular_zone zone ->
  (forall d,
     let s := getBiweekStart zone d in
     getDate zone s = (if getDate zone d <=? 15 then 1 else 16) /\
     getMonth zone s = getMonth zone d /\
     getFullYear zone s = getFullYear zone d) /\
  (forall a b,
     getFullYear zone a = getFullYear zone b ->
     getMonth zone a = getMonth zone b ->
     getDate zone a = 15 -> getDate zone b = 16 ->
     valid_time (getBiweekStart zone a) ->
     valid_time (getBiweekStart zone b) ->
     periodKey (getBiweekStart zone a) <> periodKey (getBiweekStart zone b)).
Proof.
  intros Hz. pose proof Hz as [R B]. split.
  - intros d. cbv zeta.
    destruct (getBiweekStart_form zone d Hz) as (x & -> & Dx).
    unfold getDate, getMonth, getFullYear. rewrite <- (R x) in Dx.
    set (l := LocalTime zone d) in *.
    set (p := if DateFromTime l <=? 15 then 1 else 16) in *.
    pose proof (MonthFromTime_bounds l) as Hm.
    pose proof (InLeapYear_cases l) as Hl.
    assert (Hl' : 0 <= InLeapYear l <= 1) by lia.
    pose proof (DaysInMonth_bounds _ _ Hl' Hm) as Hdim.
    assert (Hp : 1 <= p <= DaysInMonth (InLeapYear l) (MonthFromTime l))
      by (subst p; destruct (DateFromTime l <=? 15); lia).
    destruct (fields_same_month l _ p Hp Dx) as (Y & M & Dt).
    repeat split; assumption.
  - intros a b HY HM Ha Hb Va Vb E.
    apply periodKey_inj in E; trivial.
    destruct (getBiweekStart_form zone a Hz) as (xa & Ea & Da).
    destruct (getBiweekStart_form zone b Hz) as (xb & Eb & Db).
    rewrite Ea, Eb in E.
    unfold getDate, getMonth, getFullYear in *.
    rewrite Ha in Da. rewrite Hb in Db.
    cbn [Z.leb Z.compare Pos.compare Pos.compare_cont] in Da, Db.
    pose proof (MakeDay_fields (LocalTime zone a) 1) as Fa.
    pose proof (MakeDay_fields (LocalTime zone b) 1) as Fb.
    rewrite HY, HM, Fb, Ha, Hb in Fa.
    pose proof (B xa false) as Ba. pose proof (B xb false) as Bb.
    unfold UTC, Day, msPerDay in *. div_lia.
Qed.

(** A session that starts on the 15th at 23:59 and one that starts on
    the 16th at 00:01 (March 2024, UTC). *)
Lemma getBiweekStart_first_or_sixteenth_witness :
  periodKey (getBiweekStart (fixed_zone 0) 1710547140000)
  <> periodKey (getBiweekStart (fixed_zone 0) 1710547260000).
Proof.
  apply (proj2 (getBiweekStart_first_or_sixteenth (fixed_zone 0)
                  (regular_fixed_zone 0 ltac:(unfold msPerDay; lia))));
    try reflexivity; vm_compute; split; discriminate.
Defined.

End BiweekFacts.

(** ** The stable sort *)
Module JSArrayFacts.
Import JSArray.

Section Sort.
Context {A : Type}.
Variable comparefn : A -> A -> option Z.

Lemma sort_insert_Permutation x l :
  Permutation (x :: l) (sort_insert comparefn x l).
Proof.
  induction l as [| y l IH]; cbn [sort_insert]; [reflexivity |].
  destruct (SortCompare comparefn x y <=? 0); [reflexivity |].
  rewrite perm_swap. now apply perm_skip.
Qed.

Lemma sort_Permutation l : Permutation l (sort comparefn l).
Proof.
  induction l as [| x l IH]; [reflexivity |].
  change (sort comparefn (x :: l))
    with (sort_insert comparefn x (sort comparefn l)).
  rewrite <- sort_insert_Permutation. now apply perm_skip.
Qed.

Lemma In_sort x l : In x (sort comparefn l) <-> In x l.
Proof.
  split; apply Permutation_in;
    [symmetry |]; apply sort_Permutation.
Qed.

(** When the comparator is the difference of a measure [f] on the
    elements of the array, the result is ordered by [f], largest
    first. *)
Variable f : A -> Z.

Lemma sort_insert_sorted x l :
  (forall y, In y l -> comparefn x y = Some (f y - f x)) ->
  StronglySorted (fun a b => f b <= f a) l ->
  StronglySorted (fun a b => f b <= f a) (sort_insert comparefn x l).
Proof.
  intros Hx Hs. induction Hs as [| y l Hs IH Hy]; cbn [sort_insert].
  - repeat constructor.
  - unfold SortCompare. rewrite (Hx y (or_introl eq_refl)).
    destruct (Z.leb_spec (f y - f x) 0) as [Le | Gt].
    + constructor; [now constructor |].
      constructor; [lia |].
      eapply Forall_impl; [| exact Hy]. cbv beta. intros b Hb. lia.
    + constructor.
      * apply IH. intros z Hz. apply Hx. now right.
      * apply Forall_forall. intros z Hz.
        apply (Permutation_in _ (Permutation_sym
                 (sort_insert_Permutation x l))) in Hz.
        destruct Hz as [<- | Hz]; [lia |].
        rewrite Forall_forall in Hy. now apply Hy.
Qed.

Lemma sort_sorted l :
  by_measure comparefn f l ->
  StronglySorted (fun a b => f b <= f a) (sort comparefn l).
Proof.
  induction l as [| x l IH]; intros H.
  - constructor.
  - change (sort comparefn (x :: l))
      with (sort_insert comparefn x (sort comparefn l)).
    apply sort_insert_sorted.
    + intros y Hy. apply H; [now left |].
      right. exact (proj1 (In_sort y l) Hy).
    + apply IH. intros a b Ha Hb. apply H; now right.
Qed.
End Sort.

End JSArrayFacts.

(** ** Objects as maps *)
Module JSObjectFacts.
Import JSObject.

Section Obj.
Context {V : Type}.
Implicit Types (o : JSObject.t V) (k : string) (v : V).

Lemma get_set_same k v o : get k (set k v o) = Some v.
Proof.
  induction o as [| [k' v'] o IH]; cbn [set get].
  - now rewrite String.eqb_refl.
  - destruct (String.eqb_spec k' k) as [-> | N]; cbn [get].
    + now rewrite String.eqb_refl.
    + destruct (String.eqb_spec k' k); [contradiction | exact IH].
Qed.

Lemma get_set_other k k0 v o : k <> k0 -> get k0 (set k v o) = get k0 o.
Proof.
  intros N. induction o as [| [k' v'] o IH]; cbn [set get].
  - destruct (String.eqb_spec k k0); [contradiction | reflexivity].
  - destruct (String.eqb_spec k' k) as [-> | N']; cbn [get].
    + destruct (String.eqb_spec k k0); [contradiction | reflexivity].
    + now rewrite IH.
Qed.

Lemma get_update_same k f o : get k (update k f o) = option_map f (get k o).
Proof.
  induction o as [| [k' v'] o IH]; cbn [update get]; [reflexivity |].
  destruct (String.eqb_spec k' k) as [-> | N]; cbn [get].
  - now rewrite String.eqb_refl.
  - destruct (String.eqb_spec k' k); [contradiction | exact IH].
Qed.

Lemma get_update_other k k0 f o :
  k <> k0 -> get k0 (update k f o) = get k0 o.
Proof.
  intros N. induction o as [| [k' v'] o IH]; cbn [update get];
    [reflexivity |].
  destruct (String.eqb_spec k' k) as [-> | N']; cbn [get].
  - destruct (String.eqb_spec k k0); [contradiction | reflexivity].
  - now rewrite IH.
Qed.

Lemma keys_update k f o : keys (update k f o) = keys o.
Proof.
  unfold keys. induction o as [| [k' v'] o IH]; cbn [update map];
    [reflexivity |].
  destruct (String.eqb k' k); cbn [map fst]; [reflexivity | now rewrite IH].
Qed.

Lemma In_keys k o : In k (keys o) <-> get k o <> None.
Proof.
  unfold keys. induction o as [| [k' v'] o IH]; cbn [get map fst In].
  - split; [intros [] | intros H; now apply H].
  - destruct (String.eqb_spec k' k) as [-> | N].
    + split; [discriminate | now left].
    + rewrite <- IH. split; [intros [E | H]; [contradiction | exact H] |].
      now right.
Qed.

(** A key that is new goes after the others. *)
Lemma keys_set_new k v o : get k o = None -> keys (set k v o) = keys o ++ [k].
Proof.
  unfold keys. induction o as [| [k' v'] o IH]; cbn [set get map fst app];
    [reflexivity |].
  destruct (String.eqb k' k); [discriminate |].
  intros H. cbn [map fst]. now rewrite IH.
Qed.
End Obj.

End JSObjectFacts.

(** ** The aggregation *)
Module TotalsFacts.
Import JSDate JSDateFacts JSString JSDateText Totals KeyFacts.
Import JSArray JSArrayFacts JSObject JSObjectFacts.

Lemma sum_minutes_cons x l :
  sum_minutes (x :: l) = minutes_of x + sum_minutes l.
Proof. reflexivity. Qed.

Lemma sum_minutes_app l1 l2 :
  sum_minutes (l1 ++ l2) = sum_minutes l1 + sum_minutes l2.
Proof.
  induction l1 as [| x l1 IH]; [reflexivity |].
  rewrite <- app_comm_cons, !sum_minutes_cons, IH. lia.
Qed.

Section Zone.
Variable zone : Z -> bool -> Z.
Variable mode : string.

Lemma run_loop_snoc l x :
  run_loop zone mode (l ++ [x]) = visit zone mode (run_loop zone mode l) x.
Proof. unfold run_loop. now rewrite fold_left_app. Qed.

Lemma loop_total l :
  total (run_loop zone mode l) = sum_minutes (filter counted l).
Proof.
  induction l as [| x l IH] using rev_ind; [reflexivity |].
  rewrite run_loop_snoc, filter_app, sum_minutes_app, <- IH.
  unfold visit, counted. cbn [filter].
  destruct (duration x) as [m |] eqn:D; cbn [total].
  - rewrite sum_minutes_cons. unfold minutes_of. rewrite D.
    change (sum_minutes []) with 0. lia.
  - change (sum_minutes []) with 0. lia.
Qed.

Lemma loop_groups l : forall k,
  get k (groups (run_loop zone mode l)) = group_of zone mode k l.
Proof.
  induction l as [| x l IH] using rev_ind; intros k; [reflexivity |].
  rewrite run_loop_snoc. unfold group_of. rewrite filter_app.
  unfold visit. cbn [filter]. unfold in_group at 2, counted.
  destruct (duration x) as [m |] eqn:D; cbn [andb groups].
  2:{ rewrite app_nil_r. apply IH. }
  fold (key_of zone mode x).
  destruct (String.eqb_spec (key_of zone mode x) k) as [E | N].
  - subst k. rewrite !get_update_same.
    pose proof (IH (key_of zone mode x)) as G. unfold group_of in G.
    destruct (filter (in_group zone mode (key_of zone mode x)) l)
      as [| s0 ss] eqn:F.
    + rewrite G, get_set_same. cbn [option_map app].
      unfold add_minutes, push_session.
      cbn [start sessions totalMinutes app].
      rewrite sum_minutes_cons. unfold minutes_of. rewrite D.
      change (sum_minutes []) with 0. do 2 f_equal. lia.
    + rewrite G. rewrite G. cbn [option_map app].
      unfold add_minutes, push_session.
      cbn [start sessions totalMinutes].
      change (s0 :: ss ++ [x]) with ((s0 :: ss) ++ [x]).
      rewrite (sum_minutes_app (s0 :: ss) [x]), (sum_minutes_cons x []).
      unfold minutes_of at 1. rewrite D.
      change (sum_minutes []) with 0. do 2 f_equal. lia.
  - rewrite !get_update_other by exact N. rewrite app_nil_r.
    destruct (get (key_of zone mode x) (groups (run_loop zone mode l)));
      [| rewrite get_set_other by exact N]; apply IH.
Qed.

Lemma loop_keys l : NoDup (keys (groups (run_loop zone mode l))).
Proof.
  induction l as [| x l IH] using rev_ind; [constructor |].
  rewrite run_loop_snoc. unfold visit.
  destruct (duration x) as [m |]; [| exact IH]. cbn [groups].
  rewrite !keys_update. fold (key_of zone mode x).
  destruct (get (key_of zone mode x) (groups (run_loop zone mode l))) eqn:G;
    [exact IH |].
  rewrite keys_set_new by exact G.
  apply NoDup_app; [exact IH | repeat constructor; intros [] |].
  intros k Hk [<- | []]. apply In_keys in Hk. contradiction.
Qed.

(** What is known of a stored group. *)
Lemma group_of_Some k l g :
  group_of zone mode k l = Some g ->
  sessions g = filter (in_group zone mode k) l /\
  totalMinutes g = sum_minutes (sessions g) /\
  exists s0, In s0 l /\ counted s0 = true /\ key_of zone mode s0 = k /\
             start g = getPeriodStart zone mode (start_time s0).
Proof.
  unfold group_of.
  destruct (filter (in_group zone mode k) l) as [| s0 ss] eqn:F;
    [discriminate |].
  intros [= <-]. cbn [start sessions totalMinutes].
  repeat split. exists s0.
  assert (H : In s0 (filter (in_group zone mode k) l)) by (rewrite F; now left).
  apply filter_In in H as [Hin Hg]. unfold in_group in Hg.
  apply andb_true_iff in Hg as [Hc Hk]. apply String.eqb_eq in Hk.
  repeat split; trivial.
Qed.

Lemma group_key k l g :
  group_of zone mode k l = Some g -> periodKey (start g) = k.
Proof.
  intros H. apply group_of_Some in H as (_ & _ & s0 & _ & _ & K & S).
  now rewrite S.
Qed.

(** The groups the table shows are the stored groups, in the order of
    the sorted keys. *)
Lemma shownGroups_eq l :
  shownGroups (groupedSessions zone mode l)
  = values_at (groups (run_loop zone mode l))
      (sort newest_first (keys (groups (run_loop zone mode l)))).
Proof.
  destruct l as [| x l]; [reflexivity |].
  unfold groupedSessions, shownGroups. cbn [sortedGroups].
  now destruct (values_at _ _).
Qed.

Lemma In_shownGroups l g :
  In g (shownGroups (groupedSessions zone mode l)) ->
  exists k, group_of zone mode k l = Some g.
Proof.
  rewrite shownGroups_eq. unfold values_at. rewrite in_flat_map.
  intros (k & _ & H). exists k. rewrite <- loop_groups.
  destruct (get k (groups (run_loop zone mode l))); [| destruct H].
  destruct H as [-> | []]. reflexivity.
Qed.

Lemma total_shown l :
  totalMinutesAcrossAllPeriods (groupedSessions zone mode l)
  = total (run_loop zone mode l).
Proof.
  destruct l as [| x l]; [reflexivity |].
  unfold groupedSessions, totalMinutesAcrossAllPeriods.
  cbn [totalDurationMinutes].
  destruct (Z.eqb_spec (total (run_loop zone mode (x :: l))) 0); congruence.
Qed.

(** Every key of [groups] is the key of the start of its group, and
    that start is the period start of one of the sessions. *)
Lemma key_group l k :
  In k (keys (groups (run_loop zone mode l))) ->
  exists g s0, get k (groups (run_loop zone mode l)) = Some g /\
               periodKey (start g) = k /\
               In s0 l /\
               start g = getPeriodStart zone mode (start_time s0).
Proof.
  intros H. apply In_keys in H.
  destruct (get k (groups (run_loop zone mode l))) as [g |] eqn:G;
    [| contradiction].
  exists g. pose proof G as G'. rewrite loop_groups in G'.
  pose proof (group_key _ _ _ G') as K.
  apply group_of_Some in G' as (_ & _ & s0 & Hin & _ & _ & S).
  exists s0. repeat split; trivial.
Qed.

Lemma values_at_keys l ks :
  (forall k, In k ks -> In k (keys (groups (run_loop zone mode l)))) ->
  map (fun g => periodKey (start g))
      (values_at (groups (run_loop zone mode l)) ks) = ks.
Proof.
  induction ks as [| k ks IH]; intros H; [reflexivity |].
  unfold values_at. cbn [flat_map].
  fold (values_at (groups (run_loop zone mode l)) ks).
  destruct (key_group l k (H k (or_introl eq_refl)))
    as (g & s0 & G & K & _).
  rewrite G. cbn [app map]. rewrite K, IH; [reflexivity |].
  intros k' Hk'. apply H. now right.
Qed.
End Zone.

Lemma StronglySorted_filter {A} (R : A -> A -> Prop) (p : A -> bool) l :
  StronglySorted R l -> StronglySorted R (filter p l).
Proof.
  induction 1 as [| x l Hs IH Hx]; cbn [filter]; [constructor |].
  destruct (p x); [| exact IH].
  constructor; [exact IH |].
  apply Forall_forall. intros y Hy. apply filter_In in Hy as [Hy _].
  rewrite Forall_forall in Hx. now apply Hx.
Qed.

Lemma periodKey_of_Day a b :
  valid_time a -> valid_time b -> Day a = Day b -> periodKey a = periodKey b.
Proof.
  intros Va Vb E. rewrite !periodKey_dateText by assumption.
  destruct (PeriodFacts.fields_of_Day _ _ E) as (-> & -> & ->). reflexivity.
Qed.

End TotalsFacts.

(** ** Claims about the aggregation *)
Module AggregationSpec.
Import JSDate JSDateFacts JSString JSDateText Totals KeyFacts TotalsFacts.
Import JSArray JSArrayFacts JSObject JSObjectFacts.

Lemma well_formed_open_without_duration s :
  well_formed s -> open_without_duration s.
Proof. intros [H _]. exact H. Qed.

Lemma counted_closed s :
  open_without_duration s -> counted s = true -> is_open s = false.
Proof.
  unfold open_without_duration, counted, is_open. intros H.
  destruct (end_time s); [reflexivity |].
  now rewrite H.
Qed.

(** Summing over the sessions with a duration or over the sessions with
    an end time is the same when no open session has a duration: a
    completed session without duration adds nothing. *)
Lemma sum_counted_closed l :
  Forall open_without_duration l ->
  sum_minutes (filter counted l)
  = sum_minutes (filter (fun s => negb (is_open s)) l).
Proof.
  induction 1 as [| s l Hs _ IH]; [reflexivity |]. cbn [filter].
  pose proof (counted_closed s Hs) as C.
  destruct (counted s) eqn:Ec.
  - rewrite C by reflexivity. cbn [negb].
    rewrite !sum_minutes_cons. now rewrite IH.
  - destruct (is_open s); cbn [negb]; [exact IH |].
    rewrite sum_minutes_cons, IH. unfold minutes_of.
    unfold counted in Ec. destruct (duration s); [discriminate | reflexivity].
Qed.

(** C2.  For every list of sessions none of which is open and has a
    duration (as the data model has it) and every grouping mode, the
    grand total is the sum of [durationMinutes] over the sessions whose
    [endTime] is present; every group holds only such sessions and its
    total is the sum of their [durationMinutes], so that an open session
    adds nothing to any total. *)
Theorem grand_total_sums_completed_sessions
    (zone : Z -> bool -> Z) (mode : string) (l : list Session) :
  Forall open_without_duration l ->
  let r := groupedSessions zone mode l in
  totalMinutesAcrossAllPeriods r
  = sum_minutes (filter (fun s => negb (is_open s)) l) /\
  Forall (fun g => Forall (fun s => is_open s = false) (sessions g) /\
                   totalMinutes g = sum_minutes (sessions g))
         (shownGroups r).
Proof.
  intros W. cbv zeta. split.
  - rewrite total_shown, loop_total. now apply sum_counted_closed.
  - apply Forall_forall. intros g Hg.
    apply In_shownGroups in Hg as [k Hk].
    apply group_of_Some in Hk as (S & T & _). split; [| exact T].
    rewrite S. apply Forall_forall. intros s Hs.
    apply filter_In in Hs as [Hin Hc].
    unfold in_group in Hc. apply andb_true_iff in Hc as [Hc _].
    rewrite Forall_forall in W. now apply counted_closed; [apply W |].
Qed.

(** Two sessions of one week, 90 and 45 minutes, and one still open. *)
Lemma grand_total_sums_completed_sessions_witness :
  let l := [ mkSession 3 1709308000000 None None "c";
             mkSession 2 1709208000000 (Some 1709213400000) (Some 90) "b";
             mkSession 1 1709108000000 (Some 1709110700000) (Some 45) "a" ] in
  totalMinutesAcrossAllPeriods (groupedSessions (fixed_zone 0) "weekly" l)
  = 135 /\
  Forall (fun g => Forall (fun s => is_open s = false) (sessions g) /\
                   totalMinutes g = sum_minutes (sessions g))
         (shownGroups (groupedSessions (fixed_zone 0) "weekly" l)).
Proof.
  cbv zeta.
  refine (grand_total_sums_completed_sessions (fixed_zone 0) "weekly" _ _).
  repeat constructor; intros H; trivial; discriminate H.
Defined.

(** Scenarios A and B of the specification: one session of 30 minutes
    gives one group and the total 0:30; two sessions of one week, of 90
    and 45 minutes, give one group of 135 minutes, shown as 2:15. *)
Example scenario_A :
  let r := groupedSessions (fixed_zone 0) "weekly"
             [ mkSession 1 1709283600000 (Some 1709285400000) (Some 30) "a" ] in
  List.length (shownGroups r) = 1%nat /\
  dateHelpers.formatDuration
    (dateHelpers.Num (totalMinutesAcrossAllPeriods r)) = "0:30"%string.
Proof. split; reflexivity. Qed.

Example scenario_B :
  let r := groupedSessions (fixed_zone 0) "weekly"
             [ mkSession 2 1709208000000 (Some 1709213400000) (Some 90) "b";
               mkSession 1 1709108000000 (Some 1709110700000) (Some 45) "a" ] in
  map totalMinutes (shownGroups r) = [135] /\
  dateHelpers.formatDuration
    (dateHelpers.Num (totalMinutesAcrossAllPeriods r)) = "2:15"%string.
Proof. split; reflexivity. Qed.

(** C6.  On the empty session list the memo is the empty object, for
    every grouping mode: no group is shown and the grand total is 0. *)
Theorem empty_list_no_groups_zero_total
    (zone : Z -> bool -> Z) (mode : string) :
  groupedSessions zone mode []
  = {| sortedGroups := None; totalDurationMinutes := None |} /\
  shownGroups (groupedSessions zone mode []) = [] /\
  totalMinutesAcrossAllPeriods (groupedSessions zone mode []) = 0.
Proof. repeat split. Qed.

(** C10.  The sessions of every group shown are the sessions of the
    input that have a duration and the key of the group, in the order of
    the input; on a snapshot of the store, which is ordered by
    [start_time] descending, the sessions of every group are so
    ordered. *)
Theorem group_sessions_in_input_order
    (zone : Z -> bool -> Z) (mode : string) (l : list Session)
    (store : Store.t) :
  Forall (fun g =>
            sessions g = filter (in_group zone mode (periodKey (start g))) l)
         (shownGroups (groupedSessions zone mode l)) /\
  Forall (fun g =>
            StronglySorted (fun a b => start_time b <= start_time a)
                           (sessions g))
         (shownGroups (groupedSessions zone mode (Store.snapshot store))).
Proof.
  split; apply Forall_forall; intros g Hg;
    apply In_shownGroups in Hg as [k Hk];
    pose proof (group_key _ _ _ _ _ Hk) as K;
    apply group_of_Some in Hk as (S & _).
  - now rewrite K.
  - rewrite S. apply StronglySorted_filter.
    apply (sort_sorted Store.by_start_desc start_time).
    intros a b _ _. reflexivity.
Qed.

(** The keys of [groups] are read back by [new Date] as the UTC day of
    the start of their group. *)
Lemma key_time_group zone mode l k :
  Forall (fun s => valid_time (getPeriodStart zone mode (start_time s))) l ->
  In k (keys (groups (run_loop zone mode l))) ->
  exists g, get k (groups (run_loop zone mode l)) = Some g /\
            periodKey (start g) = k /\ valid_time (start g) /\
            Date_of_string k = Some (Day (start g) * msPerDay).
Proof.
  intros V H.
  destruct (key_group zone mode l k H) as (g & s0 & G & K & Hin & S).
  exists g. rewrite Forall_forall in V. specialize (V s0 Hin).
  rewrite <- S in V. split; [exact G |]. split; [exact K |].
  split; [exact V |]. rewrite <- K. now apply Date_of_periodKey.
Qed.

Lemma values_at_newest_first zone mode l :
  Forall (fun s => valid_time (getPeriodStart zone mode (start_time s))) l ->
  forall ks,
  (forall k, In k ks -> In k (keys (groups (run_loop zone mode l)))) ->
  NoDup ks ->
  StronglySorted (fun a b => key_time b <= key_time a) ks ->
  StronglySorted (fun g1 g2 => start g2 < start g1)
                 (values_at (groups (run_loop zone mode l)) ks).
Proof.
  intros V ks. induction ks as [| k ks IH]; intros Hin Hnd Hs; [constructor |].
  apply StronglySorted_inv in Hs as [Hs Hk].
  apply NoDup_cons_iff in Hnd as [Hnk Hnd].
  unfold values_at. cbn [flat_map].
  fold (values_at (groups (run_loop zone mode l)) ks).
  destruct (key_time_group zone mode l k V (Hin k (or_introl eq_refl)))
    as (g & G & K & Vg & P).
  rewrite G. cbn [app]. constructor.
  - apply IH; trivial. intros k' Hk'. apply Hin. now right.
  - apply Forall_forall. intros g2 Hg2.
    unfold values_at in Hg2. apply in_flat_map in Hg2 as (k2 & Hk2 & Hg2).
    destruct (key_time_group zone mode l k2 V (Hin k2 (or_intror Hk2)))
      as (g2' & G2 & K2 & Vg2 & P2).
    rewrite G2 in Hg2. destruct Hg2 as [<- | []].
    rewrite Forall_forall in Hk. specialize (Hk k2 Hk2).
    unfold key_time in Hk. rewrite P, P2 in Hk.
    assert (Hne : Day (start g2') <> Day (start g)).
    { intros E. apply Hnk. rewrite <- K, <- K2 in *.
      now rewrite <- (periodKey_of_Day _ _ Vg2 Vg E). }
    unfold Day, msPerDay in *. div_lia.
Qed.

(** C9.  For every session list whose period starts are valid dates (as
    [toISOString] demands), the groups shown are in strictly descending
    order of their period start, and their keys, the ISO dates of the
    period starts, are pairwise distinct. *)
Theorem groups_strictly_newest_first
    (zone : Z -> bool -> Z) (mode : string) (l : list Session) :
  Forall (fun s => valid_time (getPeriodStart zone mode (start_time s))) l ->
  StronglySorted (fun g1 g2 => start g2 < start g1)
                 (shownGroups (groupedSessions zone mode l)) /\
  NoDup (map (fun g => periodKey (start g))
             (shownGroups (groupedSessions zone mode l))).
Proof.
  intros V. rewrite shownGroups_eq.
  set (G := groups (run_loop zone mode l)).
  assert (Hin : forall k, In k (sort newest_first (keys G)) -> In k (keys G))
    by (intros k; apply In_sort).
  assert (Hnd : NoDup (sort newest_first (keys G))).
  { eapply Permutation_NoDup; [apply sort_Permutation |]. apply loop_keys. }
  split.
  - apply values_at_newest_first; trivial.
    apply sort_sorted. intros a b Ha Hb.
    destruct (key_time_group zone mode l a V Ha) as (ga & _ & _ & _ & Pa).
    destruct (key_time_group zone mode l b V Hb) as (gb & _ & _ & _ & Pb).
    unfold newest_first, key_time. now rewrite Pa, Pb.
  - subst G. now rewrite values_at_keys.
Qed.

(** Sessions of three different weeks, delivered newest first. *)
Lemma groups_strictly_newest_first_witness :
  StronglySorted (fun g1 g2 => start g2 < start g1)
    (shownGroups (groupedSessions (fixed_zone 0) "weekly"
       [ mkSession 3 1709308000000 None None "c";
         mkSession 2 1708208000000 (Some 1708213400000) (Some 90) "b";
         mkSession 1 1707108000000 (Some 1707110700000) (Some 45) "a" ])) /\
  NoDup (map (fun g => periodKey (start g))
    (shownGroups (groupedSessions (fixed_zone 0) "weekly"
       [ mkSession 3 1709308000000 None None "c";
         mkSession 2 1708208000000 (Some 1708213400000) (Some 90) "b";
         mkSession 1 1707108000000 (Some 1707110700000) (Some 45) "a" ]))).
Proof.
  apply groups_strictly_newest_first.
  repeat constructor; vm_compute; discriminate.
Defined.

End AggregationSpec.

(** ** Claims about [formatDuration] *)
Module DurationSpec.
Import JSString JSDateText JSStringFacts dateHelpers.

Local Open Scope string_scope.
#[local] Arguments digit_char : simpl never.

(** The first character of a numeral of width [k + 1]. *)
Lemma fixed_head k : forall n acc,
  fixed (S k) n acc
  = String (digit_char ((n / 10 ^ Z.of_nat k) mod 10)) (fixed k n acc).
Proof.
  induction k as [| k IH]; intros n acc.
  - cbn [fixed]. change (10 ^ Z.of_nat 0)%Z with 1%Z. now rewrite Z.div_1_r.
  - change (fixed (S (S k)) n acc)
      with (fixed (S k) (n / 10) (String (digit_char (n mod 10)) acc)).
    rewrite IH. cbn [fixed]. do 2 f_equal.
    rewrite Nat2Z.inj_succ, Z.pow_succ_r by lia.
    rewrite Z.div_div by (try apply Z.pow_pos_nonneg; lia). reflexivity.
Qed.

Lemma digit_char_zero d : (1 <= d <= 9)%Z -> digit_char d <> "0"%char.
Proof.
  intros H E. assert (D : digit_val (digit_char d) = Some 0%Z) by now rewrite E.
  rewrite digit_val_digit_char in D by lia. injection D as D. lia.
Qed.

(** C5.  [formatDuration(null)] is "0:00"; for every minute count
    [m >= 0], [formatDuration(m)] is [H:MM] where [H] is the decimal
    numeral of [floor(m/60)] without padding (it reads back as that
    number and has no leading zero) and [MM] is the two-digit numeral of
    [m mod 60]. *)
Theorem formatDuration_hours_minutes :
  formatDuration Null = "0:00" /\
  forall m, (0 <= m)%Z ->
    exists H MM,
      formatDuration (Num m) = H ++ ":" ++ MM /\
      read_digits (length H) 0 H = Some (m / 60, "")%Z /\
      (H = "0" \/ exists c r, H = String c r /\ c <> "0"%char) /\
      MM = String (digit_char ((m mod 60) / 10))
             (String (digit_char ((m mod 60) mod 10)) "") /\
      read_digits 2 0 MM = Some (m mod 60, "")%Z.
Proof.
  split; [reflexivity |]. intros m Hm.
  assert (Hq : (0 <= m / 60)%Z) by (Z.to_euclidean_division_equations; lia).
  assert (Hr : (0 <= m mod 60 < 60)%Z)
    by (Z.to_euclidean_division_equations; lia).
  exists (Number_toString (m / 60)), (fixed 2 (m mod 60) "").
  split; [| split; [| split; [| split]]].
  - unfold formatDuration. rewrite Z.rem_mod_nonneg by lia.
    fold (pad 2 (m mod 60)).
    rewrite pad_fixed by (try change (10 ^ Z.of_nat 2)%Z with 100%Z; lia).
    reflexivity.
  - unfold Number_toString. destruct (Z.ltb_spec (m / 60) 0); [lia |].
    destruct (decimal_fixed _ Hq) as (k & Hk & -> & U & _).
    rewrite length_fixed. cbn [length]. rewrite Nat.add_0_r.
    rewrite read_digits_fixed by lia. rewrite Z.mod_small by lia.
    reflexivity.
  - unfold Number_toString. destruct (Z.ltb_spec (m / 60) 0); [lia |].
    destruct (decimal_fixed _ Hq) as (k & Hk & -> & U & Lo).
    destruct k as [| k]; [lia |]. rewrite fixed_head.
    destruct (Z.eq_dec (m / 60) 0) as [E | N].
    + left. destruct Lo as [[= ->] | Lo].
      * rewrite E. reflexivity.
      * assert (0 < 10 ^ (Z.of_nat (S k) - 1))%Z
          by (apply Z.pow_pos_nonneg; lia).
        lia.
    + right. eexists _, _. split; [reflexivity |].
      apply digit_char_zero.
      replace (Z.of_nat (S k) - 1)%Z with (Z.of_nat k) in Lo by lia.
      rewrite Nat2Z.inj_succ, Z.pow_succ_r in U by lia.
      assert (P : (0 < 10 ^ Z.of_nat k)%Z) by (apply Z.pow_pos_nonneg; lia).
      assert (L : (10 ^ Z.of_nat k <= m / 60)%Z).
      { destruct Lo as [[= ->] | Lo]; [| exact Lo].
        change (10 ^ Z.of_nat 0)%Z with 1%Z. lia. }
      assert (1 <= m / 60 / 10 ^ Z.of_nat k)%Z
        by (apply Z.div_le_lower_bound; lia).
      assert (m / 60 / 10 ^ Z.of_nat k < 10)%Z
        by (apply Z.div_lt_upper_bound; lia).
      rewrite Z.mod_small; lia.
  - cbn [fixed]. rewrite (Z.mod_small (m mod 60 / 10))
      by (Z.to_euclidean_division_equations; lia).
    reflexivity.
  - rewrite read_digits_fixed by lia.
    change (10 ^ Z.of_nat 2)%Z with 100%Z. rewrite Z.mod_small by lia.
    reflexivity.
Qed.

(** Scenario B of the specification: 135 minutes are shown as 2:15. *)
Lemma formatDuration_hours_minutes_witness :
  exists H MM,
    formatDuration (Num 135) = H ++ ":" ++ MM /\
    read_digits (length H) 0 H = Some (135 / 60, "")%Z /\
    (H = "0" \/ exists c r, H = String c r /\ c <> "0"%char) /\
    MM = String (digit_char ((135 mod 60) / 10))
           (String (digit_char ((135 mod 60) mod 10)) "") /\
    read_digits 2 0 MM = Some (135 mod 60, "")%Z.
Proof.
  apply (proj2 formatDuration_hours_minutes 135%Z). lia.
Defined.

End DurationSpec.

(** ** Claims about the session lifecycle *)
Module LifecycleSpec.
Import App Scenarios.

Lemma find_closed l :
  Forall (fun s => is_open s = false) l -> find is_open l = None.
Proof.
  induction 1 as [| s l Hs _ IH]; cbn [find]; [reflexivity |].
  now rewrite Hs.
Qed.

(** Writing the stop fields closes a session and keeps its identifier. *)
Lemma stop_fields_closed now m s : is_open (stop_fields now m s) = false.
Proof. reflexivity. Qed.

Lemma map_stop_ids i now m l :
  map id (map (fun s => if Store.has_id i s then stop_fields now m s else s) l)
  = map id l.
Proof.
  rewrite map_map. apply map_ext. intros s. now destruct (Store.has_id i s).
Qed.

Lemma map_stop_open i now m l :
  (List.length (open_sessions
     (map (fun s => if Store.has_id i s then stop_fields now m s else s) l))
   <= List.length (open_sessions l))%nat.
Proof.
  unfold open_sessions.
  induction l as [| s l IH]; cbn [map filter]; [lia |].
  destruct (Store.has_id i s).
  - rewrite stop_fields_closed. destruct (is_open s); cbn [List.length]; lia.
  - destruct (is_open s); cbn [List.length]; lia.
Qed.

(** [stopTracking] creates no document and opens no session. *)
Lemma stopTracking_store now st store :
  let store' := snd (stopTracking now st store) in
  map id (Store.docs store') = map id (Store.docs store) /\
  (List.length (open_sessions (Store.docs store'))
   <= List.length (open_sessions (Store.docs store)))%nat.
Proof.
  cbv zeta. unfold stopTracking.
  destruct (not_connected st); [cbn [snd]; split; [reflexivity | lia] |].
  destruct (find is_open (sessions st)) as [a |];
    [| cbn [snd]; split; [reflexivity | lia]].
  unfold Store.updateDoc.
  destruct (Store.accepts_writes store && existsb _ _);
    cbn [snd Store.docs]; [| split; [reflexivity | lia]].
  split; [apply map_stop_ids | apply map_stop_open].
Qed.

(** C1, as stated, fails: [startTracking] has no check of the Active
    state.  Run while a session is open, and shown as open by the last
    snapshot, it adds a second open session. *)
Lemma startTracking_while_active_adds_session :
  isTracking tracking_state = true /\
  open_sessions (sessions tracking_state) = [tracking_session] /\
  open_sessions (Store.docs tracking_store) = [tracking_session] /\
  let store' :=
    snd (startTracking 1709209000000 tracking_state tracking_store) in
  List.length (Store.docs store') = 2%nat /\
  List.length (open_sessions (Store.docs store')) = 2%nat /\
  ~ (List.length (open_sessions (Store.docs store')) <= 1)%nat.
Proof.
  repeat split. vm_compute. lia.
Qed.

(** The same through the button, when a session is open in the store
    and the first snapshot has not arrived yet: [isTracking] is still
    false and the click starts a second session. *)
Example click_before_first_snapshot :
  let st := {| db := true; userId := Some "u1"%string; isAuthReady := true;
               sessions := []; isTracking := false; jobInput := "";
               error := None |} in
  List.length
    (open_sessions
       (Store.docs (snd (onClick 1709209000000 st tracking_store)))) = 2%nat.
Proof. reflexivity. Qed.

(** C1, amended.  The start/stop button is the gate: while [isTracking]
    is true a click runs [stopTracking], not [startTracking]; it creates
    no session and leaves no more sessions without [endTime] than there
    were, hence at most one when there was at most one. *)
Theorem click_while_tracking_creates_no_session
    (now : Z) (st : State) (store : Store.t) :
  isAuthReady st = true ->
  isTracking st = true ->
  onClick now st store = stopTracking now st store /\
  let store' := snd (onClick now st store) in
  map id (Store.docs store') = map id (Store.docs store) /\
  (List.length (open_sessions (Store.docs store'))
   <= List.length (open_sessions (Store.docs store)))%nat /\
  ((List.length (open_sessions (Store.docs store)) <= 1)%nat ->
   (List.length (open_sessions (Store.docs store')) <= 1)%nat).
Proof.
  intros Hr Ht.
  assert (E : onClick now st store = stopTracking now st store)
    by (unfold onClick; now rewrite Hr, Ht).
  split; [exact E |]. cbv zeta. rewrite E.
  destruct (stopTracking_store now st store) as [I O].
  split; [exact I | split; [exact O | lia]].
Qed.

Lemma click_while_tracking_creates_no_session_witness :
  onClick 1709209000000 tracking_state tracking_store
  = stopTracking 1709209000000 tracking_state tracking_store /\
  let store' := snd (onClick 1709209000000 tracking_state tracking_store) in
  map id (Store.docs store') = map id (Store.docs tracking_store) /\
  (List.length (open_sessions (Store.docs store'))
   <= List.length (open_sessions (Store.docs tracking_store)))%nat /\
  ((List.length (open_sessions (Store.docs tracking_store)) <= 1)%nat ->
   (List.length (open_sessions (Store.docs store')) <= 1)%nat).
Proof.
  apply click_while_tracking_creates_no_session; reflexivity.
Defined.

(** C7.  [stopTracking] with no open session in the list of sessions
    does nothing: state (hence [error] and [isTracking]) and store are
    returned as they were. *)
Theorem stop_without_open_session_is_noop
    (now : Z) (st : State) (store : Store.t) :
  Forall (fun s => is_open s = false) (sessions st) ->
  stopTracking now st store = (st, store).
Proof.
  intros H. unfold stopTracking. rewrite (find_closed _ H).
  now destruct (not_connected st).
Qed.

Lemma stop_without_open_session_is_noop_witness :
  stopTracking 1709300000000 idle_state idle_store = (idle_state, idle_store).
Proof.
  apply stop_without_open_session_is_noop.
  repeat constructor.
Defined.

(** *** The lifecycle invariant *)

Lemma find_open_snapshot store :
  match find is_open (Store.snapshot store) with
  | Some _ => true
  | None => false
  end = existsb is_open (Store.docs store).
Proof.
  pose proof (JSArrayFacts.sort_Permutation Store.by_start_desc
                (Store.docs store)) as P.
  fold (Store.snapshot store) in P.
  destruct (find is_open (Store.snapshot store)) as [a |] eqn:F.
  - apply find_some in F as [Hin Ho]. symmetry. apply existsb_exists.
    exists a. split; [| exact Ho].
    now apply (Permutation_in _ (Permutation_sym P)).
  - destruct (existsb is_open (Store.docs store)) eqn:E; [| reflexivity].
    apply existsb_exists in E as (a & Hin & Ho).
    apply (Permutation_in _ P) in Hin.
    now rewrite (find_none _ _ F a Hin) in Ho.
Qed.

Lemma no_open_sessions l :
  existsb is_open l = false -> open_sessions l = [].
Proof.
  unfold open_sessions. induction l as [| s l IH]; cbn [existsb filter];
    [reflexivity |].
  intros H. apply orb_false_iff in H as [-> H]. now apply IH.
Qed.

Lemma deliver_synced captured c :
  subscribed (fst c) = true -> synced (deliver captured c).
Proof.
  intros H. unfold deliver. rewrite H. unfold synced.
  cbn [fst snd sessions isTracking onSnapshot].
  split; [reflexivity | apply find_open_snapshot].
Qed.

Lemma handle_subscribed e c :
  subscribed (fst (handle e c)) = subscribed (fst c).
Proof.
  destruct c as [st store].
  destruct e as [now | confirmed i]; cbn [handle fst snd].
  - unfold onClick, stopTracking, startTracking.
    destruct (isAuthReady st), (isTracking st), (not_connected st);
      cbn [negb fst]; trivial;
      repeat match goal with
             | |- context [match ?x with _ => _ end] => destruct x
             end; reflexivity.
  - unfold deleteSession.
    destruct (not_connected st), confirmed; cbn [negb fst]; trivial.
    destruct (Store.deleteDoc store i); reflexivity.
Qed.

Lemma deliver_subscribed captured c :
  subscribed (fst (deliver captured c)) = subscribed (fst c).
Proof. unfold deliver. now destruct (subscribed (fst c)) eqn:E. Qed.

Lemma deliver_store captured c : snd (deliver captured c) = snd c.
Proof. unfold deliver. now destruct (subscribed (fst c)). Qed.

(** No handler leaves more than one session open when the state shows
    the store and at most one session is open. *)
Lemma handle_open e c :
  synced c ->
  (List.length (open_sessions (Store.docs (snd c))) <= 1)%nat ->
  (List.length (open_sessions (Store.docs (snd (handle e c)))) <= 1)%nat.
Proof.
  destruct c as [st store]. intros [_ T] H. cbn [fst snd] in *.
  destruct e as [now | confirmed i]; cbn [handle fst snd].
  - unfold onClick. destruct (isAuthReady st); cbn [negb snd]; [| exact H].
    destruct (isTracking st).
    + pose proof (stopTracking_store now st store) as [_ O]. cbv zeta in O.
      lia.
    + symmetry in T. apply no_open_sessions in T.
      unfold startTracking. destruct (not_connected st); [exact H |].
      unfold Store.addDoc. destruct (Store.accepts_writes store);
        cbn [snd Store.docs]; [| exact H].
      unfold open_sessions in *. rewrite filter_app, T. cbn. lia.
  - unfold deleteSession.
    destruct (not_connected st), confirmed; cbn [negb snd]; trivial.
    unfold Store.deleteDoc. destruct (Store.accepts_writes store);
      cbn [snd Store.docs]; trivial.
    unfold open_sessions in *.
    assert (L : forall (l : list Session) p,
              (List.length (filter is_open (filter p l))
               <= List.length (filter is_open l))%nat).
    { clear. intros l p. induction l as [| s l IH]; cbn [filter]; [lia |].
      destruct (p s), (is_open s) eqn:E; cbn [filter List.length];
        rewrite ?E; cbn [List.length]; lia. }
    specialize (L (Store.docs store)
                  (fun s => negb (Store.has_id i s))). lia.
Qed.

(** *** The data model of sessions is kept *)

Lemma handle_well_formed e c :
  Forall well_formed (Store.docs (snd c)) ->
  Forall well_formed (Store.docs (snd (handle e c))).
Proof.
  destruct c as [st store]. intros H. cbn [fst snd] in *.
  destruct e as [now | confirmed i]; cbn [handle fst snd].
  - unfold onClick, stopTracking, startTracking.
    destruct (isAuthReady st); cbn [negb snd]; [| exact H].
    destruct (isTracking st), (not_connected st); cbn [snd]; trivial.
    + destruct (find is_open (sessions st)) as [a |]; [| exact H].
      unfold Store.updateDoc.
      destruct (Store.accepts_writes store && existsb _ _);
        cbn [snd Store.docs]; [| exact H].
      apply Forall_map. eapply Forall_impl; [| exact H].
      intros s Hs. destruct (Store.has_id (id a) s); [| exact Hs].
      split; discriminate.
    + unfold Store.addDoc. destruct (Store.accepts_writes store);
        cbn [snd Store.docs]; [| exact H].
      apply Forall_app. split; [exact H |].
      repeat constructor.
  - unfold deleteSession.
    destruct (not_connected st), confirmed; cbn [negb snd]; trivial.
    unfold Store.deleteDoc. destruct (Store.accepts_writes store);
      cbn [snd Store.docs]; trivial.
    apply Forall_forall. intros s Hs. apply filter_In in Hs as [Hs _].
    rewrite Forall_forall in H. now apply H.
Qed.

(** X22.  Every session of a snapshot is well formed when the documents
    are, and documents that the component wrote are: a session starts with
    neither [end_time] nor [duration] and gets both when it is stopped. *)
Theorem sessions_well_formed
    (captured : bool) (es : list Event) (c : State * Store.t) :
  Forall well_formed (Store.docs (snd c)) ->
  Forall well_formed (Store.snapshot (snd (run captured es c))).
Proof.
  intros H.
  assert (K : Forall well_formed (Store.docs (snd (run captured es c)))).
  { revert c H. induction es as [| e es IH]; intros c H; [exact H |].
    cbn [run fold_left]. apply IH. unfold step.
    rewrite deliver_store. now apply handle_well_formed. }
  apply Forall_forall. intros s Hs.
  apply JSArrayFacts.In_sort in Hs. rewrite Forall_forall in K. now apply K.
Qed.

(** A session is started and then stopped five minutes later. *)
Lemma sessions_well_formed_witness :
  Forall well_formed
    (Store.snapshot
       (snd (run false [Click 1709300000000; Click 1709300300000]
               (idle_state, idle_store)))).
Proof.
  apply sessions_well_formed.
  constructor; [split; discriminate | constructor].
Defined.

(** X23.  The lifecycle invariant of the specification, for the component
    with its listener subscribed: from a state that shows the store,
    with at most one session open, every sequence of clicks and
    deletions, each followed by its snapshot, leads to such a state. *)
Theorem at_most_one_open_session
    (captured : bool) (es : list Event) (c : State * Store.t) :
  subscribed (fst c) = true ->
  synced c ->
  (List.length (open_sessions (Store.docs (snd c))) <= 1)%nat ->
  synced (run captured es c) /\
  (List.length (open_sessions (Store.docs (snd (run captured es c)))) <= 1)%nat.
Proof.
  revert c. induction es as [| e es IH]; intros c Hs Hy Ho; [now split |].
  cbn [run fold_left]. apply IH.
  - unfold step. now rewrite deliver_subscribed, handle_subscribed.
  - unfold step. apply deliver_synced. now rewrite handle_subscribed.
  - unfold step. rewrite deliver_store. now apply handle_open.
Qed.

(** Start, stop, start again, and delete the session just started. *)
Lemma at_most_one_open_session_witness :
  let c' := run false [Click 1709300000000; Click 1709300300000;
                       Click 1709300600000; Delete true 3]
              (idle_state, idle_store) in
  synced c' /\
  (List.length (open_sessions (Store.docs (snd c'))) <= 1)%nat.
Proof.
  apply at_most_one_open_session;
    [reflexivity | split; reflexivity | cbn; lia].
Defined.

(** [Math.round] takes a half up, also below zero. *)
Example Math_round_div_halves :
  Math_round_div 150000 60000 = 3 /\ Math_round_div 149999 60000 = 2 /\
  Math_round_div (-150000) 60000 = -2 /\ Math_round_div (-150001) 60000 = -3.
Proof. repeat split. Qed.

(** C8.  [stopTracking], connected, with [a] the open session of the
    list of sessions, a document of a store that accepts the write:
    the document of [a] gets [end_time = now] and [duration = m], where
    [m] is the whole number of minutes nearest to [now - start_time a],
    a half going up ([m - 1/2 <= (now - start_time a) / 60000 < m + 1/2]);
    the other documents are left as they are. *)
Theorem stop_writes_rounded_duration
    (now : Z) (st : State) (store : Store.t) (a : Session) :
  not_connected st = false ->
  find is_open (sessions st) = Some a ->
  Store.accepts_writes store = true ->
  In a (Store.docs store) ->
  exists m,
    60000 * m - 30000 <= now - start_time a < 60000 * m + 30000 /\
    stopTracking now st store
    = (set_jobInput "" st,
       {| Store.docs :=
            map (fun s => if Store.has_id (id a) s
                          then stop_fields now m s else s) (Store.docs store);
          Store.accepts_writes := true |}) /\
    In {| id := id a; start_time := start_time a; end_time := Some now;
          duration := Some m; jobName := jobName a |}
       (Store.docs (snd (stopTracking now st store))).
Proof.
  intros Hc Hf Hw Hin.
  exists (Math_round_div (now - start_time a) (1000 * 60)).
  assert (E : stopTracking now st store
              = (set_jobInput "" st,
                 {| Store.docs :=
                      map (fun s => if Store.has_id (id a) s
                                    then stop_fields now
                                           (Math_round_div
                                              (now - start_time a) (1000 * 60))
                                           s
                                    else s) (Store.docs store);
                    Store.accepts_writes := true |})).
  { unfold stopTracking. rewrite Hc, Hf. unfold Store.updateDoc. rewrite Hw.
    assert (X : existsb (Store.has_id (id a)) (Store.docs store) = true).
    { apply existsb_exists. exists a. split; [exact Hin |].
      apply Nat.eqb_refl. }
    now rewrite X. }
  split; [| split; [exact E |]].
  - unfold Math_round_div. Z.to_euclidean_division_equations; lia.
  - rewrite E. cbn [snd Store.docs].
    change {| id := id a; start_time := start_time a; end_time := Some now;
              duration :=
                Some (Math_round_div (now - start_time a) (1000 * 60));
              jobName := jobName a |}
      with (stop_fields now
              (Math_round_div (now - start_time a) (1000 * 60)) a).
    apply in_map_iff. exists a. split; [| exact Hin].
    unfold Store.has_id. now rewrite Nat.eqb_refl.
Qed.

(** Stopping two and a half minutes after the start. *)
Lemma stop_writes_rounded_duration_witness :
  exists m,
    60000 * m - 30000 <= 1709208150000 - start_time tracking_session
    < 60000 * m + 30000 /\
    stopTracking 1709208150000 tracking_state tracking_store
    = (set_jobInput "" tracking_state,
       {| Store.docs :=
            map (fun s => if Store.has_id (id tracking_session) s
                          then stop_fields 1709208150000 m s else s)
                (Store.docs tracking_store);
          Store.accepts_writes := true |}) /\
    In {| id := id tracking_session;
          start_time := start_time tracking_session;
          end_time := Some 1709208150000;
          duration := Some m; jobName := jobName tracking_session |}
       (Store.docs (snd (stopTracking 1709208150000 tracking_state
                           tracking_store))).
Proof.
  apply stop_writes_rounded_duration; try reflexivity. now left.
Defined.

End LifecycleSpec.

(** * Further properties of the code *)

(** ** Period starts: month, week in zones with changes of clock,
       composition, bounds and order *)
Module PeriodExtras.
Import JSDate JSDateFacts dateHelpers PeriodFacts Totals.

Section AnyZone.
Variable zone : Z -> bool -> Z.

Lemma getMonthStart_form d :
  regular_zone zone ->
  exists x,
    getMonthStart zone d = UTC zone x /\
    Day x = Day (LocalTime zone d) - DateFromTime (LocalTime zone d) + 1.
Proof.
  intros [R _]. unfold getMonthStart.
  rewrite setDate_value, setHours_midnight.
  set (l := LocalTime zone d).
  set (l1 := LocalTime zone (UTC zone (MakeDate (Day l) 0))).
  assert (D1 : Day l1 = Day l).
  { subst l1. rewrite R. apply Day_MakeDate. unfold msPerDay. lia. }
  destruct (fields_of_Day _ _ D1) as (_ & _ & E). rewrite E, D1.
  eexists. split; [reflexivity |].
  apply Day_MakeDate, TimeWithinDay_bounds.
Qed.

Lemma getWeekStart_form d :
  regular_zone zone ->
  exists x,
    getWeekStart zone d = UTC zone x /\
    Day x = Day (LocalTime zone d) - WeekDay (LocalTime zone d).
Proof.
  intros [R _]. unfold getWeekStart.
  rewrite setHours_midnight, setDate_value. unfold getDate, getDay.
  set (l := LocalTime zone d).
  rewrite R. rewrite Day_MakeDate by apply TimeWithinDay_bounds.
  eexists. split; [reflexivity |].
  rewrite Day_MakeDate by (unfold msPerDay; lia). lia.
Qed.
End AnyZone.

(** X1.  In a regular zone, for every date [d], [getMonthStart d] has
    day of month 1 in the month and year of [d]. *)
Theorem getMonthStart_first_of_month (zone : Z -> bool -> Z) (d : Z) :
  regular_zone zone ->
  getDate zone (getMonthStart zone d) = 1 /\
  getMonth zone (getMonthStart zone d) = getMonth zone d /\
  getFullYear zone (getMonthStart zone d) = getFullYear zone d.
Proof.
  intros Hz. pose proof Hz as [R _].
  destruct (getMonthStart_form zone d Hz) as (x & -> & Dx).
  unfold getDate, getMonth, getFullYear. rewrite <- (R x) in Dx.
  set (l := LocalTime zone d) in *.
  pose proof (MonthFromTime_bounds l) as Hm.
  pose proof (InLeapYear_cases l) as Hl.
  assert (Hl' : 0 <= InLeapYear l <= 1) by lia.
  pose proof (DaysInMonth_bounds _ _ Hl' Hm) as Hdim.
  assert (Hp : 1 <= 1 <= DaysInMonth (InLeapYear l) (MonthFromTime l)) by lia.
  destruct (fields_same_month l _ 1 Hp Dx) as (Y & M & Dt).
  repeat split; assumption.
Qed.

(** 29 February 2024, 12:00, in Los Angeles. *)
Lemma getMonthStart_first_of_month_witness :
  getDate pacific_2024 (getMonthStart pacific_2024 1709236800000) = 1 /\
  getMonth pacific_2024 (getMonthStart pacific_2024 1709236800000)
  = getMonth pacific_2024 1709236800000 /\
  getFullYear pacific_2024 (getMonthStart pacific_2024 1709236800000)
  = getFullYear pacific_2024 1709236800000.
Proof.
  apply getMonthStart_first_of_month. exact regular_pacific_2024.
Defined.

(** X2.  In a regular zone, changes of clock included, for every date
    [d], [getWeekStart d] falls on a Sunday, and its local calendar day
    lies [getDay d] days, from 0 to 6, before the local calendar day of
    [d]. *)
Theorem getWeekStart_sunday_of_the_week (zone : Z -> bool -> Z) (d : Z) :
  regular_zone zone ->
  getDay zone (getWeekStart zone d) = 0 /\
  Day (LocalTime zone (getWeekStart zone d))
  = Day (LocalTime zone d) - getDay zone d /\
  0 <= getDay zone d <= 6.
Proof.
  intros Hz. pose proof Hz as [R _].
  destruct (getWeekStart_form zone d Hz) as (x & -> & Dx).
  unfold getDay, WeekDay. rewrite R, Dx.
  unfold WeekDay. generalize (Day (LocalTime zone d)). intros n.
  repeat split; div_lia.
Qed.

(** Saturday 9 November 2024, 23:30, in Los Angeles, six calendar days
    after the Sunday on which the clocks were set back. *)
Lemma getWeekStart_sunday_of_the_week_witness :
  getDay pacific_2024 (getWeekStart pacific_2024 1731223800000) = 0 /\
  Day (LocalTime pacific_2024 (getWeekStart pacific_2024 1731223800000))
  = Day (LocalTime pacific_2024 1731223800000)
    - getDay pacific_2024 1731223800000 /\
  0 <= getDay pacific_2024 1731223800000 <= 6.
Proof.
  apply getWeekStart_sunday_of_the_week. exact regular_pacific_2024.
Defined.

Section FixedZone.
Variable tza : Z.

Lemma midnight_fields n :
  Day (MakeDate n 0) = n /\ TimeWithinDay (MakeDate n 0) = 0.
Proof. unfold Day, TimeWithinDay, MakeDate, msPerDay. split; div_lia. Qed.

Lemma getMonthStart_value d :
  getMonthStart (fixed_zone tza) d
  = (Day (d + tza) - DateFromTime (d + tza) + 1) * msPerDay - tza.
Proof.
  unfold getMonthStart. rewrite setDate_value, setHours_midnight.
  rewrite !UTC_fixed, !LocalTime_fixed.
  replace (MakeDate (Day (d + tza)) 0 - tza + tza)
    with (MakeDate (Day (d + tza)) 0) by lia.
  destruct (midnight_fields (Day (d + tza))) as [E1 E2].
  destruct (fields_of_Day _ _ E1) as (_ & _ & E3).
  rewrite E1, E2, E3. unfold MakeDate. lia.
Qed.

Lemma getBiweekStart_value d :
  getBiweekStart (fixed_zone tza) d
  = (Day (d + tza) - DateFromTime (d + tza)
     + (if DateFromTime (d + tza) <=? 15 then 1 else 16)) * msPerDay - tza.
Proof.
  unfold getBiweekStart. rewrite setDate_value, setHours_midnight.
  unfold getDate. rewrite !UTC_fixed, !LocalTime_fixed.
  replace (MakeDate (Day (d + tza)) 0 - tza + tza)
    with (MakeDate (Day (d + tza)) 0) by lia.
  destruct (midnight_fields (Day (d + tza))) as [E1 E2].
  destruct (fields_of_Day _ _ E1) as (_ & _ & E3).
  rewrite E1, E2, E3. unfold MakeDate. lia.
Qed.
End FixedZone.

(** The day number of the first of the month of [l] is
    [Day l - DateFromTime l + 1]; every day from there to the day of
    [l] lies in the same month. *)
Lemma month_start_between l t' :
  Day l - DateFromTime l + 1 <= Day t' <= Day l ->
  DateFromTime t' = Day t' - (Day l - DateFromTime l + 1) + 1.
Proof.
  intros H.
  pose proof (month_table l) as [Hin Hdate].
  assert (Hp : 1 <= Day t' - (Day l - DateFromTime l + 1) + 1
               <= DaysInMonth (InLeapYear l) (MonthFromTime l)) by lia.
  assert (Hd : Day t' = Day l - DateFromTime l
                        + (Day t' - (Day l - DateFromTime l + 1) + 1)) by lia.
  now destruct (fields_same_month l t' _ Hp Hd) as (_ & _ & Dt).
Qed.

Lemma month_start_mono l1 l2 :
  Day l1 <= Day l2 ->
  Day l1 - DateFromTime l1 + 1 <= Day l2 - DateFromTime l2 + 1.
Proof.
  intros H.
  destruct (Z.le_gt_cases (Day l1 - DateFromTime l1 + 1)
                          (Day l2 - DateFromTime l2 + 1)) as [L | G];
    [exact L | exfalso].
  pose proof (DateFromTime_bounds l1) as B1.
  destruct (midnight_fields (Day l1 - DateFromTime l1 + 1)) as [E _].
  set (a := MakeDate (Day l1 - DateFromTime l1 + 1) 0) in *.
  pose proof (month_start_between l1 a) as H1.
  pose proof (month_start_between l2 a) as H2.
  rewrite E in H1, H2. lia.
Qed.

Lemma month_start_strict l1 l2 :
  Day l1 - DateFromTime l1 + 1 < Day l2 - DateFromTime l2 + 1 ->
  Day l1 < Day l2 - DateFromTime l2 + 1.
Proof.
  intros H.
  destruct (Z.lt_ge_cases (Day l1) (Day l2 - DateFromTime l2 + 1))
    as [L | G]; [exact L | exfalso].
  pose proof (DateFromTime_bounds l2) as B2.
  destruct (midnight_fields (Day l2 - DateFromTime l2 + 1)) as [E _].
  set (a := MakeDate (Day l2 - DateFromTime l2 + 1) 0) in *.
  pose proof (month_start_between l1 a) as H1.
  pose proof (month_start_between l2 a) as H2.
  rewrite E in H1, H2. lia.
Qed.

Lemma Day_mono a b : a <= b -> Day a <= Day b.
Proof. unfold Day, msPerDay. intros H. div_lia. Qed.

Lemma Day_mul n : Day (n * msPerDay) = n.
Proof. unfold Day, msPerDay. div_lia. Qed.

(** With a fixed offset every period start is a local midnight. *)
Lemma getPeriodStart_midnight tza mode d :
  exists k, getPeriodStart (fixed_zone tza) mode d = k * msPerDay - tza.
Proof.
  unfold getPeriodStart.
  destruct (String.eqb mode "monthly");
    [| destruct (String.eqb mode "biweekly")].
  - rewrite getMonthStart_value. eexists. reflexivity.
  - rewrite getBiweekStart_value. eexists. reflexivity.
  - rewrite getWeekStart_value. eexists. reflexivity.
Qed.

(** X3.  With a fixed offset the period start of a period start is
    itself, for the three periods: a date that is the start of its
    period is its own period start. *)
Theorem getPeriodStart_idempotent (tza : Z) (mode : string) (d : Z) :
  getPeriodStart (fixed_zone tza) mode
    (getPeriodStart (fixed_zone tza) mode d)
  = getPeriodStart (fixed_zone tza) mode d.
Proof.
  unfold getPeriodStart.
  destruct (String.eqb mode "monthly");
    [| destruct (String.eqb mode "biweekly")].
  - rewrite !getMonthStart_value.
    set (l := d + tza).
    set (F := Day l - DateFromTime l + 1).
    replace (F * msPerDay - tza + tza) with (F * msPerDay) by lia.
    pose proof (DateFromTime_bounds l) as B.
    pose proof (month_start_between l (F * msPerDay)) as H.
    rewrite Day_mul in *. fold F in H. rewrite H by lia. f_equal. f_equal. lia.
  - rewrite !getBiweekStart_value.
    set (l := d + tza).
    set (p := if DateFromTime l <=? 15 then 1 else 16).
    set (G := Day l - DateFromTime l + p).
    replace (G * msPerDay - tza + tza) with (G * msPerDay) by lia.
    pose proof (DateFromTime_bounds l) as B.
    pose proof (month_start_between l (G * msPerDay)) as H.
    rewrite Day_mul in *.
    assert (Hp : (p = 1 \/ p = 16) /\ p <= DateFromTime l).
    { subst p. destruct (Z.leb_spec (DateFromTime l) 15); lia. }
    assert (E : DateFromTime (G * msPerDay) = p) by (subst G; lia).
    rewrite E.
    replace (if p <=? 15 then 1 else 16) with p
      by (destruct Hp as [[-> | ->] _]; reflexivity).
    f_equal. f_equal. lia.
  - rewrite !getWeekStart_value.
    set (l := d + tza).
    set (n := Day l - WeekDay l).
    replace (n * msPerDay - tza + tza) with (n * msPerDay) by lia.
    assert (E : WeekDay (n * msPerDay) = 0).
    { unfold WeekDay. rewrite Day_mul. subst n. unfold WeekDay.
      generalize (Day l). intros x. div_lia. }
    rewrite Day_mul, E. f_equal. f_equal. lia.
Qed.

(** X4.  With a fixed offset, for every date [d]: [getMonthStart d] is
    not after [d] and less than 31 days before it; [getBiweekStart d]
    is not after [d] and less than 16 days before it; both are local
    midnights. *)
Theorem month_and_biweek_start_bounds (tza d : Z) :
  let zone := fixed_zone tza in
  (0 <= d - getMonthStart zone d < 31 * msPerDay /\
   0 <= d - getBiweekStart zone d < 16 * msPerDay) /\
  (TimeWithinDay (LocalTime zone (getMonthStart zone d)) = 0 /\
   TimeWithinDay (LocalTime zone (getBiweekStart zone d)) = 0).
Proof.
  cbv zeta. rewrite getMonthStart_value, getBiweekStart_value.
  rewrite !LocalTime_fixed.
  set (l := d + tza).
  pose proof (DateFromTime_bounds l) as B.
  set (p := if DateFromTime l <=? 15 then 1 else 16).
  assert (Hp : 1 <= p <= DateFromTime l /\ DateFromTime l - p <= 15).
  { subst p. destruct (Z.leb_spec (DateFromTime l) 15); lia. }
  assert (HD : Day l * msPerDay <= l < Day l * msPerDay + msPerDay)
    by (unfold Day, msPerDay; div_lia).
  assert (Hl : d = l - tza) by (subst l; lia).
  unfold msPerDay in *.
  repeat split; try lia; unfold TimeWithinDay, msPerDay; div_lia.
Qed.

(** X5.  With a fixed offset the period start is monotone in the date:
    a later date never has an earlier period start. *)
Theorem getPeriodStart_monotone (tza : Z) (mode : string) (d1 d2 : Z) :
  d1 <= d2 ->
  getPeriodStart (fixed_zone tza) mode d1
  <= getPeriodStart (fixed_zone tza) mode d2.
Proof.
  intros H.
  assert (HD : Day (d1 + tza) <= Day (d2 + tza)) by (apply Day_mono; lia).
  unfold getPeriodStart.
  destruct (String.eqb mode "monthly");
    [| destruct (String.eqb mode "biweekly")].
  - rewrite !getMonthStart_value.
    pose proof (month_start_mono _ _ HD). unfold msPerDay. lia.
  - rewrite !getBiweekStart_value.
    set (l1 := d1 + tza) in *. set (l2 := d2 + tza) in *.
    pose proof (month_start_mono _ _ HD) as M.
    pose proof (month_start_strict l1 l2) as S.
    pose proof (DateFromTime_bounds l1) as B1.
    pose proof (DateFromTime_bounds l2) as B2.
    unfold msPerDay.
    destruct (Z.leb_spec (DateFromTime l1) 15),
             (Z.leb_spec (DateFromTime l2) 15); lia.
  - rewrite !getWeekStart_value. unfold WeekDay.
    revert HD. generalize (Day (d1 + tza)) (Day (d2 + tza)).
    intros n1 n2 HD. unfold msPerDay.
    assert (n1 - (n1 + 4) mod 7 <= n2 - (n2 + 4) mod 7) by div_lia.
    lia.
Qed.

(** 31 March and 1 April 2024, noon UTC, by month. *)
Lemma getPeriodStart_monotone_witness :
  getPeriodStart (fixed_zone 0) "monthly" 1711886400000
  <= getPeriodStart (fixed_zone 0) "monthly" 1711972800000.
Proof. apply getPeriodStart_monotone. lia. Defined.

(** X6.  The key of a group is the UTC date of the period start, a
    local midnight.  With a fixed offset at or west of UTC the key is
    the text of the local date of the period start; with a fixed offset
    east of UTC it is the text of the local date one day earlier. *)
Theorem group_key_is_utc_date (tza : Z) (mode : string) (d : Z) :
  let zone := fixed_zone tza in
  let s := getPeriodStart zone mode d in
  valid_time s ->
  (- msPerDay < tza <= 0 ->
   periodKey s
   = JSDateText.dateText (getFullYear zone s) (getMonth zone s + 1)
       (getDate zone s)) /\
  (0 < tza <= msPerDay ->
   periodKey s
   = JSDateText.dateText (getFullYear zone (s - msPerDay))
       (getMonth zone (s - msPerDay) + 1) (getDate zone (s - msPerDay))).
Proof.
  cbv zeta. intros V.
  rewrite (KeyFacts.periodKey_dateText _ V).
  destruct (getPeriodStart_midnight tza mode d) as (k & E).
  unfold getFullYear, getMonth, getDate. rewrite !LocalTime_fixed.
  rewrite E. split; intros Hz.
  - assert (D : Day (k * msPerDay - tza) = Day (k * msPerDay - tza + tza))
      by (unfold Day, msPerDay in *; div_lia).
    now destruct (fields_of_Day _ _ D) as (-> & -> & ->).
  - assert (D : Day (k * msPerDay - tza)
                = Day (k * msPerDay - tza - msPerDay + tza))
      by (unfold Day, msPerDay in *; div_lia).
    now destruct (fields_of_Day _ _ D) as (-> & -> & ->).
Qed.

(** 15 March 2024, noon, one hour east of UTC, by month: the period
    starts on 1 March, local time, and its key is the last day of
    February. *)
Lemma group_key_is_utc_date_witness :
  periodKey (getPeriodStart (fixed_zone 3600000) "monthly" 1710500400000)
  = JSDateText.dateText 2024 2 29.
Proof.
  apply (proj2 (group_key_is_utc_date 3600000 "monthly" 1710500400000
                  ltac:(vm_compute; split; discriminate)));
    unfold msPerDay; lia.
Defined.

(** X25.  With a fixed offset the half months refine the months: the
    month start of the biweek start of a date is the month start of the
    date, and the biweek start is not before the month start; so two
    dates of one biweekly group are in one monthly group. *)
Theorem biweek_start_within_month (tza d : Z) :
  let zone := fixed_zone tza in
  getMonthStart zone (getBiweekStart zone d) = getMonthStart zone d /\
  getMonthStart zone d <= getBiweekStart zone d /\
  forall d', getBiweekStart zone d' = getBiweekStart zone d ->
             getMonthStart zone d' = getMonthStart zone d.
Proof.
  cbv zeta.
  assert (C : forall x,
            getMonthStart (fixed_zone tza) (getBiweekStart (fixed_zone tza) x)
            = getMonthStart (fixed_zone tza) x /\
            getMonthStart (fixed_zone tza) x
            <= getBiweekStart (fixed_zone tza) x).
  { intros x. rewrite !getMonthStart_value, !getBiweekStart_value.
    set (l := x + tza).
    set (p := if DateFromTime l <=? 15 then 1 else 16).
    set (G := Day l - DateFromTime l + p).
    replace (G * msPerDay - tza + tza) with (G * msPerDay) by lia.
    pose proof (DateFromTime_bounds l) as B.
    assert (Hp : 1 <= p <= DateFromTime l).
    { subst p. destruct (Z.leb_spec (DateFromTime l) 15); lia. }
    pose proof (month_start_between l (G * msPerDay)) as H.
    rewrite Day_mul in *. rewrite H by (subst G; lia).
    unfold msPerDay. subst G. split; lia. }
  split; [apply C |]. split; [apply C |].
  intros d' E. rewrite <- (proj1 (C d')), E. apply C.
Qed.

End PeriodExtras.

(** ** The groups as a partition of the sessions with a duration *)
Module AggregationExtras.
Import JSDate Totals TotalsFacts.
Import JSArray JSArrayFacts JSObject JSObjectFacts.

Lemma sum_minutes_Permutation l l' :
  Permutation l l' -> sum_minutes l = sum_minutes l'.
Proof.
  induction 1 as [| x l l' _ IH | x y l | l l' l'' _ IH1 _ IH2].
  - reflexivity.
  - rewrite !sum_minutes_cons. now rewrite IH.
  - rewrite !sum_minutes_cons. lia.
  - now rewrite IH1.
Qed.

Lemma filter_Permutation {A} (p : A -> bool) l l' :
  Permutation l l' -> Permutation (filter p l) (filter p l').
Proof.
  induction 1 as [| x l l' _ IH | x y l | l l' l'' _ IH1 _ IH2];
    cbn [filter].
  - constructor.
  - destruct (p x); [now constructor | exact IH].
  - destruct (p x), (p y); try reflexivity. constructor.
  - now transitivity (filter p l').
Qed.

(** Adding [x] to the list of one key of a duplicate-free list of keys
    adds it once to the concatenation. *)
Lemma flat_map_add_one {B} (kx : string) (x : B) (f : string -> list B) ks :
  NoDup ks -> In kx ks ->
  Permutation
    (flat_map (fun k => if String.eqb kx k then x :: f k else f k) ks)
    (x :: flat_map f ks).
Proof.
  induction 1 as [| k ks Hk Hnd IH]; intros Hin; [destruct Hin |].
  cbn [flat_map].
  destruct (String.eqb_spec kx k) as [-> | N].
  - assert (E : flat_map (fun k' => if String.eqb k k' then x :: f k' else f k')
                  ks = flat_map f ks).
    { clear IH Hin Hnd. induction ks as [| k' ks IH]; [reflexivity |].
      cbn [flat_map].
      destruct (String.eqb_spec k k') as [-> | _].
      - exfalso. apply Hk. now left.
      - f_equal. apply IH. intros H. apply Hk. now right. }
    rewrite E. reflexivity.
  - destruct Hin as [-> | Hin]; [contradiction |].
    etransitivity; [apply Permutation_app_head, IH, Hin |].
    symmetry. apply Permutation_middle.
Qed.

Section Zone.
Variable zone : Z -> bool -> Z.
Variable mode : string.

(** The loop skips the sessions without duration. *)
Lemma run_loop_counted l :
  run_loop zone mode l = run_loop zone mode (filter counted l).
Proof.
  unfold run_loop. generalize {| groups := []; total := 0 |}.
  induction l as [| x l IH]; intros acc; [reflexivity |].
  cbn [fold_left filter]. unfold counted at 1, visit at 2.
  destruct (duration x) as [m |] eqn:D.
  - cbn [fold_left]. unfold visit at 3. rewrite D. apply IH.
  - apply IH.
Qed.

Lemma buckets_Permutation ks l :
  NoDup ks ->
  (forall s, In s l -> counted s = true -> In (key_of zone mode s) ks) ->
  Permutation (flat_map (fun k => filter (in_group zone mode k) l) ks)
              (filter counted l).
Proof.
  intros Hnd. induction l as [| x l IH]; intros Hks.
  - cbn [filter]. clear Hnd Hks.
    induction ks as [| k ks IHk]; [constructor | exact IHk].
  - cbn [filter]. destruct (counted x) eqn:C.
    + rewrite (flat_map_ext _
        (fun k => if String.eqb (key_of zone mode x) k
                  then x :: filter (in_group zone mode k) l
                  else filter (in_group zone mode k) l)).
      2:{ intros k. unfold in_group at 1. rewrite C. reflexivity. }
      etransitivity;
        [apply flat_map_add_one;
         [exact Hnd | apply Hks; [now left | exact C]] |].
      constructor. apply IH. intros s Hs. apply Hks. now right.
    + rewrite (flat_map_ext _ (fun k => filter (in_group zone mode k) l)).
      2:{ intros k. unfold in_group at 1. rewrite C. reflexivity. }
      apply IH. intros s Hs. apply Hks. now right.
Qed.

Lemma values_at_sessions l ks :
  flat_map sessions (values_at (groups (run_loop zone mode l)) ks)
  = flat_map (fun k => filter (in_group zone mode k) l) ks.
Proof.
  induction ks as [| k ks IH]; [reflexivity |].
  unfold values_at. cbn [flat_map]. rewrite flat_map_app.
  fold (values_at (groups (run_loop zone mode l)) ks). rewrite IH.
  f_equal. rewrite loop_groups. unfold group_of.
  destruct (filter (in_group zone mode k) l); [reflexivity |].
  cbn [flat_map sessions]. now rewrite app_nil_r.
Qed.

Lemma counted_key_stored l s :
  In s l -> counted s = true ->
  In (key_of zone mode s) (keys (groups (run_loop zone mode l))).
Proof.
  intros Hin C. apply In_keys. rewrite loop_groups. unfold group_of.
  assert (H : In s (filter (in_group zone mode (key_of zone mode s)) l)).
  { apply filter_In. split; [exact Hin |]. unfold in_group.
    now rewrite C, String.eqb_refl. }
  destruct (filter _ l); [destruct H | discriminate].
Qed.

Lemma sorted_keys_NoDup l :
  NoDup (sort newest_first (keys (groups (run_loop zone mode l)))).
Proof.
  eapply Permutation_NoDup; [apply sort_Permutation | apply loop_keys].
Qed.

Lemma shown_sessions_Permutation l :
  Permutation
    (flat_map sessions (shownGroups (groupedSessions zone mode l)))
    (filter counted l).
Proof.
  rewrite shownGroups_eq, values_at_sessions.
  apply buckets_Permutation; [apply sorted_keys_NoDup |].
  intros s Hin C. apply In_sort. now apply counted_key_stored.
Qed.

Lemma shown_of_group l k g :
  group_of zone mode k l = Some g ->
  In g (shownGroups (groupedSessions zone mode l)).
Proof.
  intros G. rewrite shownGroups_eq. unfold values_at.
  apply in_flat_map. exists k. rewrite loop_groups, G.
  split; [| now left].
  apply In_sort, In_keys. rewrite loop_groups, G. discriminate.
Qed.

Lemma totals_of_sessions gs :
  Forall (fun g => totalMinutes g = sum_minutes (sessions g)) gs ->
  fold_right Z.add 0 (map totalMinutes gs)
  = sum_minutes (flat_map sessions gs).
Proof.
  induction 1 as [| g gs Hg _ IH]; [reflexivity |].
  cbn [map fold_right flat_map]. rewrite sum_minutes_app, IH, Hg.
  reflexivity.
Qed.
End Zone.

(** X7.  The groups shown partition the sessions that have a duration:
    the sessions of all the groups, put together, are a rearrangement
    of them, so each such session is in one group, once, and no other
    session is in any group. *)
Theorem groups_partition_sessions_with_duration
    (zone : Z -> bool -> Z) (mode : string) (l : list Session) :
  Permutation
    (flat_map sessions (shownGroups (groupedSessions zone mode l)))
    (filter counted l).
Proof.
  rewrite shownGroups_eq, values_at_sessions.
  apply buckets_Permutation.
  - apply sorted_keys_NoDup.
  - intros s Hin C. apply In_sort. now apply counted_key_stored.
Qed.

(** X8.  The totals of the groups shown add up to the grand total. *)
Theorem group_totals_add_up_to_grand_total
    (zone : Z -> bool -> Z) (mode : string) (l : list Session) :
  fold_right Z.add 0
    (map totalMinutes (shownGroups (groupedSessions zone mode l)))
  = totalMinutesAcrossAllPeriods (groupedSessions zone mode l).
Proof.
  rewrite totals_of_sessions.
  - rewrite (sum_minutes_Permutation _ _
               (shown_sessions_Permutation zone mode l)).
    now rewrite total_shown, loop_total.
  - apply Forall_forall. intros g Hg.
    apply In_shownGroups in Hg as [k Hk].
    now apply group_of_Some in Hk as (_ & T & _).
Qed.

(** X9.  Sessions without a duration have no part in the result:
    leaving them out of the list changes neither the groups shown nor
    the grand total. *)
Theorem sessions_without_duration_are_ignored
    (zone : Z -> bool -> Z) (mode : string) (l : list Session) :
  shownGroups (groupedSessions zone mode l)
  = shownGroups (groupedSessions zone mode (filter counted l)) /\
  totalMinutesAcrossAllPeriods (groupedSessions zone mode l)
  = totalMinutesAcrossAllPeriods
      (groupedSessions zone mode (filter counted l)).
Proof.
  rewrite !shownGroups_eq, !total_shown.
  now rewrite <- run_loop_counted.
Qed.

(** X10.  No group shown is empty; the start of a group is the period
    start of its first session, the first of the input with the key of
    the group; and every session of a group is a session of the input
    that has a duration and whose period start has the key of the
    group. *)
Theorem groups_nonempty_with_common_key
    (zone : Z -> bool -> Z) (mode : string) (l : list Session) :
  Forall (fun g =>
            (exists s0 rest,
               sessions g = s0 :: rest /\
               start g = getPeriodStart zone mode (start_time s0)) /\
            Forall (fun s => In s l /\ duration s <> None /\
                             key_of zone mode s = periodKey (start g))
                   (sessions g))
         (shownGroups (groupedSessions zone mode l)).
Proof.
  apply Forall_forall. intros g Hg.
  apply In_shownGroups in Hg as [k Hk].
  pose proof (group_key _ _ _ _ _ Hk) as K.
  pose proof (group_of_Some _ _ _ _ _ Hk) as (S & _).
  split.
  - unfold group_of in Hk.
    destruct (filter (in_group zone mode k) l) as [| s0 ss];
      [discriminate |].
    injection Hk as <-. now exists s0, ss.
  - rewrite S. apply Forall_forall. intros s Hs.
    apply filter_In in Hs as [Hin Hc]. unfold in_group in Hc.
    apply andb_true_iff in Hc as [Hc Hk']. apply String.eqb_eq in Hk'.
    split; [exact Hin |]. split; [| congruence].
    unfold counted in Hc. now destruct (duration s).
Qed.

(** X11.  The totals do not depend on the order of the session list:
    for two lists with the same sessions in different orders the grand
    totals are equal, and every group of the one has a group of the
    other with the same key, the same total and the same sessions up to
    order. *)
Theorem totals_independent_of_session_order
    (zone : Z -> bool -> Z) (mode : string) (l l' : list Session) :
  Permutation l l' ->
  totalMinutesAcrossAllPeriods (groupedSessions zone mode l)
  = totalMinutesAcrossAllPeriods (groupedSessions zone mode l') /\
  Forall (fun g =>
            exists g',
              In g' (shownGroups (groupedSessions zone mode l')) /\
              periodKey (start g') = periodKey (start g) /\
              totalMinutes g' = totalMinutes g /\
              Permutation (sessions g) (sessions g'))
         (shownGroups (groupedSessions zone mode l)).
Proof.
  intros P. split.
  - rewrite !total_shown, !loop_total.
    apply sum_minutes_Permutation, filter_Permutation, P.
  - apply Forall_forall. intros g Hg.
    apply In_shownGroups in Hg as [k Hk].
    pose proof (group_key _ _ _ _ _ Hk) as K.
    pose proof (group_of_Some _ _ _ _ _ Hk) as (S & T & _).
    pose proof (filter_Permutation (in_group zone mode k) _ _ P) as PF.
    destruct (group_of zone mode k l') as [g' |] eqn:G'.
    + pose proof (group_key _ _ _ _ _ G') as K'.
      pose proof (group_of_Some _ _ _ _ _ G') as (S' & T' & _).
      exists g'. split; [now apply shown_of_group with (k := k) |].
      split; [congruence |].
      rewrite S, S'. split; [| exact PF].
      rewrite T, T', S, S'. symmetry. now apply sum_minutes_Permutation.
    + exfalso. unfold group_of in Hk, G'.
      destruct (filter (in_group zone mode k) l) as [| s0 ss];
        [discriminate |].
      destruct (filter (in_group zone mode k) l') as [| s1 ss'];
        [| discriminate].
      now apply Permutation_sym, Permutation_nil in PF.
Qed.

(** Two sessions of one week and an open one, in two orders. *)
Lemma totals_independent_of_session_order_witness :
  let a := mkSession 1 1709108000000 (Some 1709110700000) (Some 45) "a" in
  let b := mkSession 2 1709208000000 (Some 1709213400000) (Some 90) "b" in
  let c := mkSession 3 1709308000000 None None "c" in
  totalMinutesAcrossAllPeriods
    (groupedSessions (fixed_zone 0) "weekly" [c; b; a])
  = totalMinutesAcrossAllPeriods
      (groupedSessions (fixed_zone 0) "weekly" [a; c; b]).
Proof.
  cbv zeta.
  refine (proj1 (totals_independent_of_session_order (fixed_zone 0) "weekly"
                   _ _ _)).
  etransitivity; [apply perm_skip, perm_swap | apply perm_swap].
Defined.

(** X26.  The grand total does not depend on the period chosen: by
    week, by half month or by month it is the same number. *)
Theorem grand_total_same_for_every_period
    (zone : Z -> bool -> Z) (mode mode' : string) (l : list Session) :
  totalMinutesAcrossAllPeriods (groupedSessions zone mode l)
  = totalMinutesAcrossAllPeriods (groupedSessions zone mode' l).
Proof.
  rewrite !total_shown.
  transitivity (sum_minutes (filter counted l));
    [apply loop_total | symmetry; apply loop_total].
Qed.

End AggregationExtras.

(** ** Job names, handlers and the listener together *)
Module LifecycleExtras.
Import JSString App Scenarios JobText LifecycleSpec.

Lemma trimStart_spec s :
  exists a, s = (a ++ trimStart s)%string /\ blank a = true /\
            option_map is_space (first_char (trimStart s)) <> Some true.
Proof.
  induction s as [| c r (a & E & B & F)].
  - exists ""%string. repeat split. discriminate.
  - cbn [trimStart]. destruct (is_space c) eqn:C.
    + exists (String c a). cbn [append blank]. rewrite C, B, <- E.
      repeat split. exact F.
    + exists ""%string. cbn [append blank first_char option_map].
      repeat split. rewrite C. discriminate.
Qed.

Lemma trimStart_blank s : blank s = true -> trimStart s = ""%string.
Proof.
  induction s as [| c r IH]; [reflexivity |]. cbn [blank trimStart].
  intros H. apply andb_true_iff in H as [-> H]. now apply IH.
Qed.

Lemma trimStart_not_blank s :
  blank s = false ->
  exists c r, trimStart s = String c r /\ is_space c = false.
Proof.
  induction s as [| c r IH]; [discriminate |]. cbn [blank trimStart].
  destruct (is_space c) eqn:C; cbn [andb]; [exact IH |].
  intros _. now exists c, r.
Qed.

Lemma trimEnd_spec t :
  exists b, t = (trimEnd t ++ b)%string /\ blank b = true /\
            option_map is_space (last_char (trimEnd t)) <> Some true.
Proof.
  induction t as [| c r (b & E & B & L)].
  - exists ""%string. repeat split. discriminate.
  - cbn [trimEnd]. destruct (trimEnd r) as [| c' r'] eqn:T.
    + cbn [append] in E. subst b. destruct (is_space c) eqn:C.
      * exists (String c r). cbn [append blank]. rewrite C, B.
        repeat split. discriminate.
      * exists r. cbn [append last_char option_map]. rewrite C.
        repeat split; trivial. discriminate.
    + exists b. rewrite E at 1. repeat split; trivial.
      change (last_char (String c (String c' r')))
        with (match last_char (String c' r') with
              | None => Some c
              | Some x => Some x
              end).
      destruct (last_char (String c' r')) eqn:L'; [exact L |].
      cbn [last_char] in L'. destruct (last_char r'); discriminate.
Qed.

Lemma trimEnd_head c r :
  is_space c = false -> exists r', trimEnd (String c r) = String c r'.
Proof.
  intros C. cbn [trimEnd]. rewrite C.
  destruct (trimEnd r); eexists; reflexivity.
Qed.

Lemma last_char_nonempty c r : exists x, last_char (String c r) = Some x.
Proof.
  cbn [last_char]. destruct (last_char r); eexists; reflexivity.
Qed.

Lemma job_label_nonempty input : job_label input <> ""%string.
Proof. unfold job_label. destruct (trim input); discriminate. Qed.

(** X12.  The job name that [startTracking] stores, for an input of
    characters of ASCII: [Unspecified Project] when the input is empty
    or white space only; otherwise the input without the white space at
    its two ends, a text that neither starts nor ends with white
    space. *)
Theorem job_label_trimmed_or_default (input : string) :
  ascii_only input = true ->
  if blank input
  then job_label input = "Unspecified Project"%string
  else exists a b,
         input = (a ++ job_label input ++ b)%string /\
         blank a = true /\ blank b = true /\
         option_map is_space (first_char (job_label input)) = Some false /\
         option_map is_space (last_char (job_label input)) = Some false.
Proof.
  intros _. destruct (blank input) eqn:B.
  - unfold job_label, trim. now rewrite (trimStart_blank _ B).
  - destruct (trimStart_spec input) as (a & Ea & Ba & _).
    destruct (trimStart_not_blank _ B) as (c & r & T & C).
    destruct (trimEnd_spec (trimStart input)) as (b & Eb & Bb & L).
    destruct (trimEnd_head c r C) as (r' & H).
    assert (J : job_label input = String c r').
    { unfold job_label, trim. now rewrite T, H. }
    rewrite T, H in Eb, L. rewrite T in Ea. rewrite J.
    exists a, b. rewrite <- Eb.
    split; [exact Ea |]. split; [exact Ba |]. split; [exact Bb |].
    cbn [first_char option_map]. rewrite C. split; [reflexivity |].
    destruct (last_char_nonempty c r') as (x & X). rewrite X in *.
    cbn [option_map] in *. destruct (is_space x); congruence.
Qed.

Lemma job_label_trimmed_or_default_witness :
  exists a b,
    "  Client site "%string
    = (a ++ job_label "  Client site " ++ b)%string /\
    blank a = true /\ blank b = true /\
    option_map is_space (first_char (job_label "  Client site "))
    = Some false /\
    option_map is_space (last_char (job_label "  Client site "))
    = Some false.
Proof.
  apply (job_label_trimmed_or_default "  Client site "). reflexivity.
Defined.

Lemma fresh_id_new ds : ~ In (Store.fresh_id ds) (map id ds).
Proof.
  unfold Store.fresh_id. intros H.
  assert (F : Forall (fun k => (k <= list_max (map id ds))%nat) (map id ds))
    by now apply list_max_le.
  rewrite Forall_forall in F. specialize (F _ H). lia.
Qed.

(** X13.  [startTracking], connected, with a store that accepts the
    write, adds one document and changes nothing else: the new session
    has no [end_time] and no [duration], starts at the time of the
    call, carries the job name of the input, never empty, and an
    identifier that no other document has; the state of the component
    is returned as it was. *)
Theorem startTracking_appends_one_open_session
    (now : Z) (st : State) (store : Store.t) :
  not_connected st = false ->
  Store.accepts_writes store = true ->
  exists new,
    startTracking now st store
    = (st, {| Store.docs := Store.docs store ++ [new];
              Store.accepts_writes := true |}) /\
    end_time new = None /\ duration new = None /\
    start_time new = now /\
    jobName new = job_label (jobInput st) /\ jobName new <> ""%string /\
    ~ In (id new) (map id (Store.docs store)).
Proof.
  intros Hc Hw. eexists. unfold startTracking, Store.addDoc.
  rewrite Hc, Hw. split; [reflexivity |].
  cbn [end_time duration start_time jobName id].
  repeat split; [apply job_label_nonempty | apply fresh_id_new].
Qed.

Lemma startTracking_appends_one_open_session_witness :
  exists new,
    startTracking 1709300000000 idle_state idle_store
    = (idle_state,
       {| Store.docs := Store.docs idle_store ++ [new];
          Store.accepts_writes := true |}) /\
    end_time new = None /\ duration new = None /\
    start_time new = 1709300000000 /\
    jobName new = job_label (jobInput idle_state) /\
    jobName new <> ""%string /\
    ~ In (id new) (map id (Store.docs idle_store)).
Proof.
  apply startTracking_appends_one_open_session; reflexivity.
Defined.

(** X14.  No handler touches what the listener owns: after a click or
    a deletion the list of sessions and [isTracking] are what they
    were, and so are [db], [userId] and [isAuthReady]; they change with
    the next snapshot only. *)
Theorem handlers_keep_listener_state (e : Event) (c : State * Store.t) :
  sessions (fst (handle e c)) = sessions (fst c) /\
  isTracking (fst (handle e c)) = isTracking (fst c) /\
  db (fst (handle e c)) = db (fst c) /\
  userId (fst (handle e c)) = userId (fst c) /\
  isAuthReady (fst (handle e c)) = isAuthReady (fst c).
Proof.
  destruct c as [st store].
  destruct e as [now | confirmed i]; cbn [handle fst snd].
  - unfold onClick, stopTracking, startTracking.
    destruct (negb (isAuthReady st)); [now repeat split |].
    destruct (isTracking st) eqn:T, (not_connected st);
      try (now repeat split);
      repeat match goal with
             | |- context [match ?x with _ => _ end] => destruct x
             end; now repeat split.
  - unfold deleteSession.
    destruct (not_connected st), (negb confirmed); try (now repeat split).
    destruct (Store.deleteDoc store i); now repeat split.
Qed.

(** X15.  A handler does nothing at all, to the state and to the store,
    when the component is not connected ([db] or [userId] not set),
    when the click comes before [isAuthReady], or when the deletion is
    not confirmed. *)
Theorem handlers_guarded (e : Event) (c : State * Store.t) :
  not_connected (fst c) = true \/
  (exists now, e = Click now /\ isAuthReady (fst c) = false) \/
  (exists i, e = Delete false i) ->
  handle e c = c.
Proof.
  destruct c as [st store]. cbn [fst].
  intros [H | [(now & -> & H) | (i & ->)]].
  - destruct e as [now | confirmed i]; cbn [handle fst snd].
    + unfold onClick, stopTracking, startTracking. rewrite H.
      now destruct (isAuthReady st), (isTracking st).
    + unfold deleteSession. now rewrite H.
  - cbn [handle fst snd]. unfold onClick. now rewrite H.
  - cbn [handle fst snd]. unfold deleteSession.
    now destruct (not_connected st).
Qed.

(** A deletion that the user does not confirm, in the tracking state. *)
Lemma handlers_guarded_witness :
  handle (Delete false 1) (tracking_state, tracking_store)
  = (tracking_state, tracking_store).
Proof.
  apply handlers_guarded. right. right. now exists 1%nat.
Defined.

(** X16.  When the store rejects the write, each handler sets its error
    message and changes nothing else: the store, the list of sessions,
    [isTracking] and the job input stay as they were. *)
Theorem rejected_write_sets_error_only
    (now : Z) (i : nat) (st : State) (store : Store.t) :
  not_connected st = false ->
  Store.accepts_writes store = false ->
  startTracking now st store
  = (set_error "Could not start session. Please try again." st, store) /\
  (find is_open (sessions st) <> None ->
   stopTracking now st store
   = (set_error "Could not stop session. Please check the console." st,
      store)) /\
  deleteSession true i st store
  = (set_error "Could not delete session. Check the console." st, store).
Proof.
  intros Hc Hw. repeat split.
  - unfold startTracking, Store.addDoc. now rewrite Hc, Hw.
  - intros F. unfold stopTracking, Store.updateDoc. rewrite Hc, Hw.
    now destruct (find is_open (sessions st)).
  - unfold deleteSession, Store.deleteDoc. now rewrite Hc, Hw.
Qed.

Lemma rejected_write_sets_error_only_witness :
  let store := {| Store.docs := [tracking_session];
                  Store.accepts_writes := false |} in
  stopTracking 1709209000000 tracking_state store
  = (set_error "Could not stop session. Please check the console."
       tracking_state, store).
Proof.
  cbv zeta.
  apply (rejected_write_sets_error_only 1709209000000 1%nat tracking_state);
    [reflexivity | reflexivity | discriminate].
Defined.

(** X17.  [stopTracking] reads the open session from the list of
    sessions of the state, not from the store: when that session is no
    longer a document of the store, the update fails, the error message
    is set, and no document is written. *)
Theorem stop_of_missing_document_sets_error
    (now : Z) (st : State) (store : Store.t) (a : Session) :
  not_connected st = false ->
  find is_open (sessions st) = Some a ->
  ~ In (id a) (map id (Store.docs store)) ->
  stopTracking now st store
  = (set_error "Could not stop session. Please check the console." st,
     store).
Proof.
  intros Hc Hf Hn. unfold stopTracking, Store.updateDoc. rewrite Hc, Hf.
  assert (X : existsb (Store.has_id (id a)) (Store.docs store) = false).
  { destruct (existsb _ _) eqn:E; [| reflexivity]. exfalso. apply Hn.
    apply existsb_exists in E as (s & Hin & Hs).
    apply Nat.eqb_eq in Hs. rewrite <- Hs. now apply in_map. }
  rewrite X, andb_false_r. reflexivity.
Qed.

(** The state still lists a session that was deleted elsewhere. *)
Lemma stop_of_missing_document_sets_error_witness :
  let store := {| Store.docs := []; Store.accepts_writes := true |} in
  stopTracking 1709209000000 tracking_state store
  = (set_error "Could not stop session. Please check the console."
       tracking_state, store).
Proof.
  cbv zeta.
  apply (stop_of_missing_document_sets_error _ _ _ tracking_session);
    [reflexivity | reflexivity | intros []].
Defined.

(** X27.  The listener sets [isTracking] from the snapshot alone: it
    is true exactly when a session of the snapshot has no [end_time],
    whatever it was before; and a snapshot delivered a second time
    changes nothing. *)
Theorem snapshot_decides_tracking
    (captured : bool) (l : list Session) (st : State) :
  (isTracking (onSnapshot captured l st) = true
   <-> exists s, In s l /\ end_time s = None) /\
  onSnapshot captured l (onSnapshot captured l st) = onSnapshot captured l st.
Proof.
  split.
  - unfold onSnapshot. cbn [isTracking].
    destruct (find is_open l) as [a |] eqn:F.
    + split; [intros _ | reflexivity].
      apply find_some in F as [I O]. exists a. split; [exact I |].
      unfold is_open in O. now destruct (end_time a).
    + split; [discriminate |]. intros (s & I & E).
      pose proof (find_none _ _ F s I) as O. unfold is_open in O.
      now rewrite E in O.
  - unfold onSnapshot. cbn [db userId isAuthReady jobInput error].
    destruct (find is_open l); [reflexivity |]. now destruct captured.
Qed.

(** *** Handler and snapshot, one after the other *)

Lemma subscribed_fields st :
  subscribed st = true -> isAuthReady st = true /\ not_connected st = false.
Proof.
  unfold subscribed. intros H.
  apply andb_true_iff in H as [H N]. apply andb_true_iff in H as [_ R].
  apply negb_true_iff in N. now split.
Qed.

Lemma open_sessions_In l s :
  In s (open_sessions l) <-> In s l /\ is_open s = true.
Proof. apply filter_In. Qed.

Lemma open_sessions_nil l :
  (forall s, In s l -> is_open s = true -> False) -> open_sessions l = [].
Proof.
  intros H. destruct (open_sessions l) as [| x r] eqn:E; [reflexivity |].
  assert (I : In x (open_sessions l)) by (rewrite E; now left).
  apply open_sessions_In in I as [I O]. destruct (H x I O).
Qed.

Lemma existsb_open l :
  existsb is_open l = true <-> open_sessions l <> [].
Proof.
  split.
  - intros H E. apply existsb_exists in H as (s & I & O).
    assert (X : In s (open_sessions l)) by now apply open_sessions_In.
    now rewrite E in X.
  - intros H. destruct (existsb is_open l) eqn:E; [reflexivity |].
    now apply no_open_sessions in E.
Qed.

(** The listener finds the open session when there is one only. *)
Lemma find_open_unique store a :
  open_sessions (Store.docs store) = [a] ->
  find is_open (Store.snapshot store) = Some a.
Proof.
  intros H. pose proof (find_open_snapshot store) as F.
  assert (E : existsb is_open (Store.docs store) = true)
    by (apply existsb_open; rewrite H; discriminate).
  rewrite E in F.
  destruct (find is_open (Store.snapshot store)) as [a' |] eqn:G;
    [| discriminate].
  apply find_some in G as [I O]. apply JSArrayFacts.In_sort in I.
  assert (X : In a' (open_sessions (Store.docs store)))
    by now apply open_sessions_In.
  rewrite H in X. destruct X as [-> | []]. reflexivity.
Qed.

Lemma find_open_none store :
  open_sessions (Store.docs store) = [] ->
  find is_open (Store.snapshot store) = None.
Proof.
  intros H. pose proof (find_open_snapshot store) as F.
  destruct (find is_open (Store.snapshot store)); [| reflexivity].
  symmetry in F. apply existsb_open in F. contradiction.
Qed.

(** In a list ordered by a reflexive relation, the first element with a
    property comes before every element with the property. *)
Lemma find_first_sorted {A} (R : A -> A -> Prop) (p : A -> bool) l a :
  (forall x, R x x) ->
  StronglySorted R l -> find p l = Some a ->
  forall s, In s l -> p s = true -> R a s.
Proof.
  intros Rr. induction 1 as [| x l Hs IH Hx]; [discriminate |].
  cbn [find]. destruct (p x) eqn:P.
  - intros [= <-] s [<- | Hin] _; [apply Rr |].
    rewrite Forall_forall in Hx. now apply Hx.
  - intros F s [<- | Hin] Ps; [congruence |]. now apply IH.
Qed.

Lemma snapshot_sorted store :
  StronglySorted (fun a b => start_time b <= start_time a)
                 (Store.snapshot store).
Proof.
  apply (JSArrayFacts.sort_sorted Store.by_start_desc start_time).
  intros a b _ _. reflexivity.
Qed.

(** X18.  With the list of sessions the last snapshot of the store,
    [stopTracking] stops the open session that started last: no open
    session of the store has a later [start_time] than the one whose
    document is updated. *)
Theorem stop_closes_latest_open_session
    (now : Z) (st : State) (store : Store.t) :
  not_connected st = false ->
  sessions st = Store.snapshot store ->
  Store.accepts_writes store = true ->
  existsb is_open (Store.docs store) = true ->
  exists a,
    In a (Store.docs store) /\ is_open a = true /\
    (forall s, In s (Store.docs store) -> is_open s = true ->
               start_time s <= start_time a) /\
    Store.docs (snd (stopTracking now st store))
    = map (fun s => if Store.has_id (id a) s
                    then stop_fields now
                           (Math_round_div (now - start_time a) (1000 * 60)) s
                    else s) (Store.docs store).
Proof.
  intros Hc Hs Hw He.
  pose proof (find_open_snapshot store) as F. rewrite He in F.
  destruct (find is_open (Store.snapshot store)) as [a |] eqn:G;
    [| discriminate].
  exists a. pose proof (find_some _ _ G) as [I O].
  apply JSArrayFacts.In_sort in I.
  split; [exact I |]. split; [exact O |]. split.
  - intros s Hin Ho.
    apply (find_first_sorted (fun a b => start_time b <= start_time a)
             is_open (Store.snapshot store) a); trivial.
    + intros x. lia.
    + apply snapshot_sorted.
    + now apply JSArrayFacts.In_sort.
  - unfold stopTracking, Store.updateDoc. rewrite Hc, Hs, G, Hw.
    assert (X : existsb (Store.has_id (id a)) (Store.docs store) = true).
    { apply existsb_exists. exists a. split; [exact I |].
      apply Nat.eqb_refl. }
    rewrite X. reflexivity.
Qed.

(** Two sessions were left open; the click stops the later one. *)
Lemma stop_closes_latest_open_session_witness :
  let older := mkSession 1 1709100000000 None None "a" in
  let store := {| Store.docs := [older; tracking_session];
                  Store.accepts_writes := true |} in
  let st := {| db := true; userId := Some "u1"%string; isAuthReady := true;
               sessions := Store.snapshot store; isTracking := true;
               jobInput := ""; error := None |} in
  exists a,
    In a (Store.docs store) /\ is_open a = true /\
    (forall s, In s (Store.docs store) -> is_open s = true ->
               start_time s <= start_time a) /\
    Store.docs (snd (stopTracking 1709209000000 st store))
    = map (fun s => if Store.has_id (id a) s
                    then stop_fields 1709209000000
                           (Math_round_div (1709209000000 - start_time a)
                              (1000 * 60)) s
                    else s) (Store.docs store).
Proof.
  cbv zeta. apply stop_closes_latest_open_session; reflexivity.
Defined.

Lemma stop_all_closed now m l a :
  open_sessions l = [a] ->
  open_sessions
    (map (fun s => if Store.has_id (id a) s then stop_fields now m s else s) l)
  = [].
Proof.
  intros H. apply open_sessions_nil. intros x Hx Ox.
  apply in_map_iff in Hx as (s & <- & Hs).
  destruct (Store.has_id (id a) s) eqn:I; [discriminate Ox |].
  assert (X : In s (open_sessions l)) by now apply open_sessions_In.
  rewrite H in X. destruct X as [<- | []].
  unfold Store.has_id in I. now rewrite Nat.eqb_refl in I.
Qed.

Lemma delete_all_closed l a :
  open_sessions l = [a] ->
  open_sessions (filter (fun s => negb (Store.has_id (id a) s)) l) = [].
Proof.
  intros H. apply open_sessions_nil. intros x Hx Ox.
  apply filter_In in Hx as [Hx Px].
  assert (X : In x (open_sessions l)) by now apply open_sessions_In.
  rewrite H in X. destruct X as [<- | []].
  unfold Store.has_id in Px. now rewrite Nat.eqb_refl in Px.
Qed.

(** X19.  From Active to Idle.  The listener subscribed, the state
    showing the store, one session open, the write accepted: a click,
    followed by its snapshot, leaves no session open, [isTracking]
    false and the job input empty; a document is neither added nor
    removed. *)
Theorem click_when_active_leads_to_idle
    (captured : bool) (now : Z) (c : State * Store.t) (a : Session) :
  subscribed (fst c) = true ->
  synced c ->
  Store.accepts_writes (snd c) = true ->
  open_sessions (Store.docs (snd c)) = [a] ->
  let c' := step captured c (Click now) in
  open_sessions (Store.docs (snd c')) = [] /\
  map id (Store.docs (snd c')) = map id (Store.docs (snd c)) /\
  isTracking (fst c') = false /\
  jobInput (fst c') = ""%string /\
  sessions (fst c') = Store.snapshot (snd c').
Proof.
  destruct c as [st store]. cbn [fst snd].
  intros Hsub [Hs Ht] Hw Ho. cbv zeta. cbn [fst snd] in Hs, Ht.
  destruct (subscribed_fields _ Hsub) as [Hr Hc].
  assert (Ia : In a (Store.docs store) /\ is_open a = true)
    by (apply open_sessions_In; rewrite Ho; now left).
  assert (E : existsb is_open (Store.docs store) = true)
    by (apply existsb_open; rewrite Ho; discriminate).
  rewrite E in Ht.
  unfold step, handle. cbn [fst snd]. unfold onClick.
  rewrite Hr, Ht. cbn [negb]. unfold stopTracking.
  rewrite Hc, Hs, (find_open_unique store a Ho).
  unfold Store.updateDoc. rewrite Hw.
  assert (X : existsb (Store.has_id (id a)) (Store.docs store) = true).
  { apply existsb_exists. exists a. split; [apply Ia |].
    apply Nat.eqb_refl. }
  rewrite X. cbn [andb]. unfold deliver. cbn [fst snd].
  change (subscribed (set_jobInput "" st)) with (subscribed st).
  rewrite Hsub. cbn [fst snd Store.docs].
  set (m := Math_round_div (now - start_time a) (1000 * 60)).
  pose proof (stop_all_closed now m _ a Ho) as C.
  split; [exact C |]. split; [apply map_stop_ids |].
  unfold onSnapshot.
  rewrite (find_open_none
             {| Store.docs := _; Store.accepts_writes := true |} C).
  cbn [isTracking jobInput sessions set_jobInput].
  repeat split. now destruct captured.
Qed.

Lemma click_when_active_leads_to_idle_witness :
  let c' := step false (tracking_state, tracking_store)
              (Click 1709209000000) in
  open_sessions (Store.docs (snd c')) = [] /\
  map id (Store.docs (snd c')) = map id (Store.docs tracking_store) /\
  isTracking (fst c') = false /\
  jobInput (fst c') = ""%string /\
  sessions (fst c') = Store.snapshot (snd c').
Proof.
  apply (click_when_active_leads_to_idle false 1709209000000
           (tracking_state, tracking_store) tracking_session);
    try reflexivity.
  split; reflexivity.
Defined.

(** X20.  From Idle to Active.  The listener subscribed, the state
    showing the store, no session open, the write accepted: a click,
    followed by its snapshot, adds one session, the only open one,
    started at the time of the click under the job name of the input;
    [isTracking] is true and the job input shows the stored name. *)
Theorem click_when_idle_leads_to_active
    (captured : bool) (now : Z) (c : State * Store.t) :
  subscribed (fst c) = true ->
  synced c ->
  Store.accepts_writes (snd c) = true ->
  open_sessions (Store.docs (snd c)) = [] ->
  let c' := step captured c (Click now) in
  let new := {| id := Store.fresh_id (Store.docs (snd c));
                start_time := now; end_time := None; duration := None;
                jobName := job_label (jobInput (fst c)) |} in
  Store.docs (snd c') = Store.docs (snd c) ++ [new] /\
  open_sessions (Store.docs (snd c')) = [new] /\
  isTracking (fst c') = true /\
  jobInput (fst c') = job_label (jobInput (fst c)) /\
  sessions (fst c') = Store.snapshot (snd c').
Proof.
  destruct c as [st store]. cbn [fst snd].
  intros Hsub [Hs Ht] Hw Ho. cbv zeta. cbn [fst snd] in Hs, Ht.
  destruct (subscribed_fields _ Hsub) as [Hr Hc].
  assert (E : existsb is_open (Store.docs store) = false).
  { destruct (existsb is_open (Store.docs store)) eqn:E; [| reflexivity].
    apply existsb_open in E. contradiction. }
  rewrite E in Ht.
  unfold step, handle. cbn [fst snd]. unfold onClick.
  rewrite Hr, Ht. cbn [negb]. unfold startTracking, Store.addDoc.
  rewrite Hc, Hw. unfold deliver. cbn [fst snd]. rewrite Hsub.
  cbn [fst snd Store.docs].
  set (new := {| id := Store.fresh_id (Store.docs store);
                 start_time := now; end_time := None; duration := None;
                 jobName := job_label (jobInput st) |}).
  assert (O : open_sessions (Store.docs store ++ [new]) = [new]).
  { unfold open_sessions in *. rewrite filter_app, Ho. reflexivity. }
  split; [reflexivity |]. split; [exact O |].
  unfold onSnapshot.
  rewrite (find_open_unique
             {| Store.docs := Store.docs store ++ [new];
                Store.accepts_writes := true |} new O).
  repeat split.
Qed.

Lemma click_when_idle_leads_to_active_witness :
  let c' := step false (idle_state, idle_store) (Click 1709300000000) in
  let new := {| id := Store.fresh_id (Store.docs idle_store);
                start_time := 1709300000000; end_time := None;
                duration := None;
                jobName := job_label (jobInput idle_state) |} in
  Store.docs (snd c') = Store.docs idle_store ++ [new] /\
  open_sessions (Store.docs (snd c')) = [new] /\
  isTracking (fst c') = true /\
  jobInput (fst c') = job_label (jobInput idle_state) /\
  sessions (fst c') = Store.snapshot (snd c').
Proof.
  apply (click_when_idle_leads_to_active false 1709300000000
           (idle_state, idle_store)); try reflexivity.
  split; reflexivity.
Defined.

(** X21.  Deleting the session that is open.  The listener subscribed,
    the state showing the store, one session open, the write accepted:
    its confirmed deletion, followed by its snapshot, leaves no session
    open and [isTracking] false.  The job input is emptied only when
    the listener was set up while [isTracking] was true; otherwise it
    keeps its text. *)
Theorem delete_open_session_leads_to_idle
    (captured : bool) (c : State * Store.t) (a : Session) :
  subscribed (fst c) = true ->
  synced c ->
  Store.accepts_writes (snd c) = true ->
  open_sessions (Store.docs (snd c)) = [a] ->
  let c' := step captured c (Delete true (id a)) in
  open_sessions (Store.docs (snd c')) = [] /\
  ~ In a (Store.docs (snd c')) /\
  isTracking (fst c') = false /\
  jobInput (fst c') = (if captured then ""%string else jobInput (fst c)) /\
  sessions (fst c') = Store.snapshot (snd c').
Proof.
  destruct c as [st store]. cbn [fst snd].
  intros Hsub [Hs Ht] Hw Ho. cbv zeta. cbn [fst snd] in Hs, Ht.
  destruct (subscribed_fields _ Hsub) as [Hr Hc].
  unfold step, handle. cbn [fst snd]. unfold deleteSession, Store.deleteDoc.
  rewrite Hc, Hw. cbn [negb]. unfold deliver. cbn [fst snd]. rewrite Hsub.
  cbn [fst snd Store.docs].
  pose proof (delete_all_closed _ a Ho) as C.
  split; [exact C |]. split.
  - intros I. apply filter_In in I as [_ I].
    unfold Store.has_id in I. now rewrite Nat.eqb_refl in I.
  - unfold onSnapshot.
    rewrite (find_open_none
               {| Store.docs := _; Store.accepts_writes := true |} C).
    cbn [isTracking jobInput sessions]. repeat split.
Qed.

(** The listener was set up while [isTracking] was false, as on the
    first rendering: the name of the deleted session stays in the
    input. *)
Lemma delete_open_session_leads_to_idle_witness :
  let c' := step false (tracking_state, tracking_store) (Delete true 1) in
  open_sessions (Store.docs (snd c')) = [] /\
  ~ In tracking_session (Store.docs (snd c')) /\
  isTracking (fst c') = false /\
  jobInput (fst c') = "Client Website Redesign"%string /\
  sessions (fst c') = Store.snapshot (snd c').
Proof.
  apply (delete_open_session_leads_to_idle false
           (tracking_state, tracking_store) tracking_session);
    try reflexivity.
  split; reflexivity.
Defined.

End LifecycleExtras.

(** ** Durations below zero *)
Module DurationExtras.
Import JSString JSDateText JSStringFacts dateHelpers.

Local Open Scope string_scope.
#[local] Arguments digit_char : simpl never.




End DurationExtras.
